(** * Driver Trip Tracker: trip form, result views and the duty-schedule core

    A shallow embedding of the React front end (TripForm.js, App.js,
    RouteMap.js, ELDLogViewer.js, services/api.js) together with the parts
    of the back end that the repository documents but whose sources are not
    available (the duty-schedule engine, the day splitter and the log
    renderer's coordinate mapping).

    JavaScript numbers are rationals ([Q]) extended, where the code can
    meet them, with [NaN] and the two infinities.  A number read from
    decimal text and the quotient of a division are rounded to the nearest
    double ([JS.round64]); the sums, differences and products of the hours
    shown by the log viewer are taken exactly.  Strings are
    [String.string]; objects used as dictionaries are [gmap string _];
    object literals that are enumerated with [Object.entries] are
    association lists, since their insertion order is observable. *)

From Stdlib Require Import QArith Qround Qabs Qminmax ZArith Lia Lqa Ascii.
From stdpp Require Import gmap strings list pretty.

(** ** JavaScript primitives used by the components *)

Module JS.
Local Open Scope string_scope.

(** [Math.floor] on a finite number. *)
Definition floor (x : Q) : Z := Qfloor x.

(** [Math.round]: the nearest integer, ties going towards +infinity. *)
Definition round (x : Q) : Z := Qfloor (x + (1 # 2))%Q.

(** [Number.prototype.toString] on an integral value. *)
Definition toString (z : Z) : string := pretty z.

(** [String.prototype.padStart(n, c)] with a one-character filler. *)
Definition padStart (n : nat) (c : ascii) (s : string) : string :=
  String.app (String.string_of_list_ascii (replicate (n - String.length s) c)) s.

(** Truthiness of a string: only the empty string is falsy. *)
Definition truthy_string (s : string) : bool :=
  match s with EmptyString => false | String _ _ => true end.

(** [s || t] on strings. *)
Definition or_string (s t : string) : string :=
  if truthy_string s then s else t.

(** [v || 0] where [v] is the result of a property read on an object of
    numbers: [undefined] and [0] are falsy. *)
Definition or_zero (v : option Q) : Q :=
  match v with
  | Some q => if Qeq_bool q 0 then 0%Q else q
  | None => 0%Q
  end.

(** *** Numbers that need not be finite *)

Inductive number :=
| NaN
| Infinity (negative : bool)
| Fin (q : Q).

(** [n || 0]: [NaN] and [0] are falsy. *)
Definition or_zero_number (n : number) : number :=
  match n with
  | NaN => Fin 0
  | Infinity neg => Infinity neg
  | Fin q => if Qeq_bool q 0 then Fin 0 else Fin q
  end.

(** *** Doubles

    A finite number is a rational; what the language computes is the
    double (IEEE 754 binary64) nearest to the exact result, ties going to
    the even significand. *)

Definition pow2 (e : Z) : Q := Qpower 2 e.

(** The integer part of the binary logarithm of a positive rational. *)
Definition ilog2 (a : Q) : Z :=
  let g := (Z.log2 (Qnum a) - Z.log2 (Zpos (Qden a)))%Z in
  if Qle_bool (pow2 g) a then g else (g - 1)%Z.

Definition roundHalfEven (x : Q) : Z :=
  let f := Qfloor x in
  match Qcompare (x - inject_Z f) (1 # 2) with
  | Lt => f
  | Gt => (f + 1)%Z
  | Eq => if Z.even f then f else (f + 1)%Z
  end.

(** The nearest rational with a significand of 53 bits and an exponent of
    at least -1022 (subnormal numbers included), the exponent being
    unbounded above.  A rational that is such a number already is returned
    as it is. *)
Definition round64Q (q : Q) : Q :=
  if Qeq_bool q 0 then q
  else
    let a := Qabs q in
    let ulp := pow2 (Z.max (ilog2 a) (-1022) - 52) in
    let r := (inject_Z (roundHalfEven (a / ulp)) * ulp)%Q in
    let r := (if Qle_bool 0 q then r else - r)%Q in
    if Qeq_bool r q then q else Qred r.

(** The double nearest to [q]: an infinity when the magnitude rounds to
    2^1024 or more. *)
Definition round64 (q : Q) : number :=
  let r := round64Q q in
  if Qle_bool (pow2 1024) (Qabs r) then Infinity (negb (Qle_bool 0 q))
  else Fin r.

(** The value of a decimal literal of the program text. *)
Definition literal (q : Q) : Q := round64Q q.

(** [n / d] for a positive finite [d]. *)
Definition divide (n : number) (d : Q) : number :=
  match n with
  | NaN => NaN
  | Infinity neg => Infinity neg
  | Fin q => round64 (q / d)
  end.

(** *** Reading decimal literals

    [StrDecimalLiteral] of the language specification, on strings of
    8-bit characters; [unsignedDecimal] gives the exact decimal value of a
    literal, which [parseFloat] and [stringToNumber] round to a double. *)

Definition isDigit (c : ascii) : bool :=
  let n := nat_of_ascii c in (48 <=? n)%nat && (n <=? 57)%nat.

Definition digitValue (c : ascii) : Z := Z.of_nat (nat_of_ascii c) - 48.

(** TAB, LF, VT, FF, CR and SP. *)
Definition isWhiteSpace (c : ascii) : bool :=
  let n := nat_of_ascii c in
  ((9 <=? n)%nat && (n <=? 13)%nat) || (n =? 32)%nat.

Fixpoint skipWhiteSpace (s : string) : string :=
  match s with
  | String c rest => if isWhiteSpace c then skipWhiteSpace rest else s
  | EmptyString => s
  end.

(** The longest run of decimal digits at the head of [s]: its value
    continuing [acc], the number of digits read after [count], and the
    rest of the string. *)
Fixpoint digits (s : string) (acc : Z) (count : nat) : Z * nat * string :=
  match s with
  | String c rest =>
      if isDigit c then digits rest (10 * acc + digitValue c) (S count)
      else (acc, count, s)
  | EmptyString => (acc, count, s)
  end.

Definition sign (s : string) : bool * string :=
  match s with
  | String "-" rest => (true, rest)
  | String "+" rest => (false, rest)
  | _ => (false, s)
  end.

(** ExponentPart, when one is present at the head of [s]. *)
Definition exponent (s : string) : Z * string :=
  match s with
  | String c rest =>
      if (c =? "e")%char || (c =? "E")%char then
        let '(neg, r1) := sign rest in
        let '(e, n, r2) := digits r1 0 0 in
        match n with
        | O => (0%Z, s)
        | S _ => ((if neg then - e else e)%Z, r2)
        end
      else (0%Z, s)
  | EmptyString => (0%Z, s)
  end.

(** StrUnsignedDecimalLiteral without its [Infinity] alternative: the
    value of the longest literal at the head of [s] and the rest of the
    string, or [None] when no literal starts [s]. *)
Definition unsignedDecimal (s : string) : option (Q * string) :=
  let '(ip, ni, r1) := digits s 0 0 in
  let '(fp, nf, r2) :=
    match r1 with
    | String "." r => digits r ip 0
    | _ => (ip, 0%nat, r1)
    end in
  match ni, nf with
  | O, O => None
  | _, _ =>
      let '(e, r3) := exponent r2 in
      Some ((inject_Z fp * Qpower 10 (e - Z.of_nat nf))%Q, r3)
  end.

(** The global [parseFloat]: leading white space is skipped and the
    longest prefix that is a decimal literal is read. *)
Definition parseFloat (s : string) : number :=
  let '(neg, r) := sign (skipWhiteSpace s) in
  if String.prefix "Infinity" r then Infinity neg
  else match unsignedDecimal r with
       | Some (q, _) => round64 (if neg then - q else q)
       | None => NaN
       end.

(** [ToNumber] on a string: the whole trimmed string must be a decimal
    literal, and the empty string is 0.  The [0x], [0o] and [0b] forms of
    StringNumericLiteral are left out (they read as [NaN] here). *)
Definition stringToNumber (s : string) : number :=
  match skipWhiteSpace s with
  | EmptyString => Fin 0
  | t =>
      let '(neg, r) := sign t in
      if String.prefix "Infinity" r then
        match skipWhiteSpace (String.substring 8 (String.length r - 8) r) with
        | EmptyString => Infinity neg
        | _ => NaN
        end
      else match unsignedDecimal r with
           | Some (q, rest) =>
               match skipWhiteSpace rest with
               | EmptyString => round64 (if neg then - q else q)
               | _ => NaN
               end
           | None => NaN
           end
  end.

(** *** [Number.prototype.toString] from 1e21 on

    For a double [x] of at least 1e21 the digits are the shortest decimal
    that reads back as [x]: the least number [k] of digits for which some
    [s] of [k] digits has [s * 10^(n-k)] round to [x], and for that [k]
    the [s] nearest to [x], the even one of two equally near; they are
    printed with a point after the first digit and the exponent [n - 1]. *)

Definition tenTo (n : nat) : Z := (10 ^ Z.of_nat n)%Z.

(** The search for [s] and [n], from [k] digits on.  Seventeen digits
    identify any double; for a rational that is not a double the search
    could run out, and gives then all the digits of the integer part. *)
Fixpoint shortest (fuel k n : nat) (x : Q) : Z * nat :=
  match fuel with
  | O => (Qfloor x, n)
  | S fuel' =>
      let scale := inject_Z (tenTo (n - k)) in
      let lo := Qfloor (x / scale) in
      let hi := (lo + 1)%Z in
      let reads_back (s : Z) := Qeq_bool (round64Q (inject_Z s * scale)) x in
      let up := if (hi =? tenTo k)%Z then (1%Z, S n) else (hi, n) in
      match reads_back lo, reads_back hi with
      | true, true =>
          match Qcompare (x - inject_Z lo * scale) (inject_Z hi * scale - x) with
          | Lt => (lo, n)
          | Gt => up
          | Eq => if Z.even lo then (lo, n) else up
          end
      | true, false => (lo, n)
      | false, true => up
      | false, false => shortest fuel' (S k) n x
      end
  end.

Definition toStringLarge (x : Q) : string :=
  let n := String.length (pretty (Qfloor x)) in
  let '(s, n') := shortest 17 1 n x in
  let ds := pretty s in
  match ds with
  | String d (String _ _ as more) => String d ("." +:+ more)
  | _ => ds
  end +:+ "e+" +:+ pretty (n' - 1)%nat.

(** *** [Number.prototype.toFixed] *)

(** The integer [n] with [n / 10^d] nearest to [a], the larger one on a
    tie. *)
Definition nearest (d : nat) (a : Q) : Z :=
  Qfloor (a * inject_Z (10 ^ Z.of_nat d) + (1 # 2))%Q.

(** [x.toFixed(d)] for a finite [x]: the sign, then, for a magnitude
    below 1e21, [nearest d] of it printed with a decimal point before its
    last [d] digits and, from 1e21 on, what [toString] prints. *)
Definition toFixedFinite (d : nat) (x : Q) : string :=
  let neg := negb (Qle_bool 0 x) in
  let a := (if neg then - x else x)%Q in
  (if neg then "-" else "")
    +:+ (if Qle_bool (inject_Z (tenTo 21)) a then toStringLarge a
         else
           let n := nearest d a in
           let m := padStart (d + 1) "0" (pretty n) in
           let k := (String.length m - d)%nat in
           String.substring 0 k m
             +:+ (match d with
                  | O => ""
                  | S _ => "." +:+ String.substring k d m
                  end)).

Definition toFixed (d : nat) (x : number) : string :=
  match x with
  | NaN => "NaN"
  | Infinity neg => if neg then "-Infinity" else "Infinity"
  | Fin q => toFixedFinite d q
  end.

(** A prop that holds an array, [null] or [undefined]. *)
Inductive array_prop (A : Type) : Type :=
| Null
| Undefined
| Arr (items : list A).
Arguments Null {A}.
Arguments Undefined {A}.
Arguments Arr {A} items.

End JS.

(** ** components/ELDLogViewer.js *)

Module ELDLogViewer.
Import JS.
Local Open Scope string_scope.

Definition STATUS_COLORS : list (string * string) :=
  [ ("off_duty", "#4a5568");
    ("sleeper_berth", "#6b46c1");
    ("driving", "#2b6cb0");
    ("on_duty", "#276749") ].

Definition STATUS_LABELS : list (string * string) :=
  [ ("off_duty", "Off Duty");
    ("sleeper_berth", "Sleeper Berth");
    ("driving", "Driving");
    ("on_duty", "On Duty (Not Driving)") ].

(** Property read [obj[key]] on an object literal. *)
Fixpoint get (obj : list (string * string)) (key : string) : option string :=
  match obj with
  | [] => None
  | (k, v) :: rest => if String.eqb k key then Some v else get rest key
  end.

Definition formatHours (h : Q) : string :=
  let hrs := floor h in
  let mins := round ((h - inject_Z hrs) * 60)%Q in
  toString hrs +:+ "h " +:+ padStart 2 "0" (toString mins) +:+ "m".

Record DutyEvent := {
  time : Q;
  status : string;
  location : string;
  remark : string
}.

Record DaySchedule := {
  day : Z;
  date_offset : Z;
  events : list DutyEvent;
  totals : option (gmap string Q)
}.

Record Log := {
  log_day : Z;
  log_date_offset : Z;
  image_base64 : string
}.

(** *** The [DaySchedule] component: one table row per event *)

Record Row := {
  row_time : string;
  row_badge_color : option string;
  row_badge_label : string;
  row_location : string;
  row_remark : string
}.

(** [const next = day.events[i + 1]; const endTime = next ? next.time : 24] *)
Definition endTime (evs : list DutyEvent) (i : nat) : Q :=
  match evs !! (i + 1)%nat with
  | Some next => time next
  | None => 24%Q
  end.

(** [const duration = endTime - ev.time] *)
Definition duration (evs : list DutyEvent) (i : nat) (ev : DutyEvent) : Q :=
  (endTime evs i - time ev)%Q.

Definition eventRow (evs : list DutyEvent) (i : nat) (ev : DutyEvent) : Row :=
  let hrs := floor (time ev) in
  let mins := round ((time ev - inject_Z hrs) * 60)%Q in
  let timeStr :=
    padStart 2 "0" (toString hrs) +:+ ":" +:+ padStart 2 "0" (toString mins) in
  {| row_time := timeStr;
     row_badge_color := get STATUS_COLORS (status ev);
     row_badge_label :=
       match get STATUS_LABELS (status ev) with
       | Some l => or_string l (status ev)
       | None => status ev
       end;
     row_location := location ev;
     row_remark :=
       or_string (remark ev) ("(" +:+ formatHours (duration evs i ev) +:+ ")") |}.

(** [day.events.map((ev, i) => ...)] *)
Definition scheduleRows (d : DaySchedule) : list Row :=
  imap (eventRow (events d)) (events d).

(** The component for a value of its [expanded] state: the day of the
    header and, when expanded, the rows of the table. *)
Definition dayScheduleView (d : DaySchedule) (expanded : bool)
  : Z * option (list Row) :=
  (day d, if expanded then Some (scheduleRows d) else None).

(** *** The [ELDLogViewer] component *)

Record TotalItem := {
  item_key : string;
  item_color : option string;
  item_width_percent : Q;
  item_label : string;
  item_value : string
}.

Definition totalItem (t : gmap string Q) (entry : string * string) : TotalItem :=
  let '(key, label) := entry in
  let hrs := or_zero (t !! key) in
  {| item_key := key;
     item_color := get STATUS_COLORS key;
     item_width_percent := ((hrs / 24) * 100)%Q;
     item_label := label;
     item_value := formatHours hrs |}.

(** The number shown after "Total On-Duty:". *)
Definition totalOnDuty (t : gmap string Q) : Q :=
  (or_zero (t !! "driving") + or_zero (t !! "on_duty"))%Q.

Record TotalsPanel := {
  panel_items : list TotalItem;
  panel_combined : string
}.

Definition totalsPanel (t : gmap string Q) : TotalsPanel :=
  {| panel_items := map (totalItem t) STATUS_LABELS;
     panel_combined := formatHours (totalOnDuty t) |}.

Record View := {
  view_subtitle : string;
  view_tabs : list (string * bool);
  view_image_src : string;
  view_image_alt : string;
  view_totals : option TotalsPanel;
  view_schedule : option (Z * option (list Row))
}.

(** What a render yields: [null], an element, or a [TypeError] when
    [currentLog] is [undefined] and a field of it is read. *)
Inductive Rendered :=
| RenderNull
| RenderView (v : View)
| RenderThrows.

(** [schedule?.[activeDay]] *)
Definition scheduleAt (schedule : array_prop DaySchedule) (activeDay : nat)
  : option DaySchedule :=
  match schedule with
  | Arr s => s !! activeDay
  | Null | Undefined => None
  end.

Definition renderLogs (logs : list Log) (schedule : array_prop DaySchedule)
    (activeDay : nat) (expanded : bool) : Rendered :=
  match logs !! activeDay with
  | None => RenderThrows
  | Some currentLog =>
      let currentSchedule := scheduleAt schedule activeDay in
      RenderView
        {| view_subtitle :=
             pretty (length logs) +:+ " log sheet"
               +:+ (if (1 <? length logs)%nat then "s" else "") +:+ " generated";
           view_tabs :=
             imap (fun i log =>
                     ("Day " +:+ toString (log_day log), Nat.eqb activeDay i)) logs;
           view_image_src := "data:image/png;base64," +:+ image_base64 currentLog;
           view_image_alt := "ELD Log Day " +:+ toString (log_day currentLog);
           view_totals :=
             match currentSchedule with
             | Some s => totalsPanel <$> totals s
             | None => None
             end;
           view_schedule :=
             (fun s => dayScheduleView s expanded) <$> currentSchedule |}
  end.

(** The component body for given values of its [activeDay] state and of
    the [expanded] state of the event table below it. *)
Definition render (logs : array_prop Log) (schedule : array_prop DaySchedule)
    (activeDay : nat) (expanded : bool) : Rendered :=
  match logs with
  | Null | Undefined => RenderNull
  | Arr [] => RenderNull
  | Arr l => renderLogs l schedule activeDay expanded
  end.

(** [useState(0)] and [useState(false)]: the first render. *)
Definition initialActiveDay : nat := 0.

Definition initialExpanded : bool := false.

Definition initialRender (logs : array_prop Log)
    (schedule : array_prop DaySchedule) : Rendered :=
  render logs schedule initialActiveDay initialExpanded.

End ELDLogViewer.

(** ** components/RouteMap.js: the list of legs *)

Module RouteMap.
Import JS.
Local Open Scope string_scope.

(** A property of a leg of the JSON response, when it is a scalar; a
    number is given by the decimal value of its text. *)
Inductive value :=
| VNull
| VBool (b : bool)
| VStr (s : string)
| VNum (q : Q).

(** [ToNumber] of a property read; a missing property reads [undefined].
    [JSON.parse] has read a number as the nearest double. *)
Definition toNumber (v : option value) : number :=
  match v with
  | None => NaN
  | Some VNull => Fin 0
  | Some (VBool b) => Fin (if b then 1 else 0)
  | Some (VNum q) => round64 q
  | Some (VStr s) => stringToNumber s
  end.

(** One [route-map__leg] element: the two values interpolated around the
    arrow ([None] is [undefined]) and the two figures of the detail
    line. *)
Record LegView := {
  leg_from : option value;
  leg_to : option value;
  leg_miles : string;
  leg_hours : string
}.

Definition METERS_PER_MILE : Q := literal 1609.34.

Definition SECONDS_PER_HOUR : Q := literal 3600.

(** [(leg.distance_meters / 1609.34).toFixed(0)] and
    [(leg.duration_seconds / 3600).toFixed(1)] *)
Definition legView (leg : gmap string value) : LegView :=
  {| leg_from := leg !! "from_location";
     leg_to := leg !! "to_location";
     leg_miles :=
       toFixed 0 (divide (toNumber (leg !! "distance_meters")) METERS_PER_MILE);
     leg_hours :=
       toFixed 1 (divide (toNumber (leg !! "duration_seconds")) SECONDS_PER_HOUR) |}.

Record RouteData := {
  legs : option (list (gmap string value));
  total_distance_miles : option Q;
  total_duration_hours : option Q
}.

(** [routeData?.legs && routeData.legs.map(...)] *)
Definition legsPanel (routeData : option RouteData) : option (list LegView) :=
  match routeData with
  | Some r => map legView <$> legs r
  | None => None
  end.

End RouteMap.

(** ** components/TripForm.js *)

Module TripForm.
Import JS.
Local Open Scope string_scope.

Record FormData := {
  current_location : string;
  pickup_location : string;
  dropoff_location : string;
  current_cycle_used : string
}.

(** [useState({...})] *)
Definition initialFormData : FormData :=
  {| current_location := ""; pickup_location := "";
     dropoff_location := ""; current_cycle_used := "" |}.

(** [setFormData((prev) => ({ ...prev, [name]: value }))] for the names
    the four inputs carry. *)
Definition handleChange (name value : string) (prev : FormData) : FormData :=
  if String.eqb name "current_location" then
    {| current_location := value; pickup_location := pickup_location prev;
       dropoff_location := dropoff_location prev;
       current_cycle_used := current_cycle_used prev |}
  else if String.eqb name "pickup_location" then
    {| current_location := current_location prev; pickup_location := value;
       dropoff_location := dropoff_location prev;
       current_cycle_used := current_cycle_used prev |}
  else if String.eqb name "dropoff_location" then
    {| current_location := current_location prev;
       pickup_location := pickup_location prev; dropoff_location := value;
       current_cycle_used := current_cycle_used prev |}
  else if String.eqb name "current_cycle_used" then
    {| current_location := current_location prev;
       pickup_location := pickup_location prev;
       dropoff_location := dropoff_location prev; current_cycle_used := value |}
  else prev.

(** The object handed to [onSubmit], which becomes the request body. *)
Record TripData := {
  data_current_location : string;
  data_pickup_location : string;
  data_dropoff_location : string;
  data_current_cycle_used : number
}.

(** The [data] that [handleSubmit] builds and passes to [onSubmit]. *)
Definition handleSubmit (formData : FormData) : TripData :=
  {| data_current_location := current_location formData;
     data_pickup_location := pickup_location formData;
     data_dropoff_location := dropoff_location formData;
     data_current_cycle_used :=
       or_zero_number (parseFloat (current_cycle_used formData)) |}.

(** A finite number between 0 and 70, ends included. *)
Definition in_cycle_range (n : number) : Prop :=
  exists q, n = Fin q /\ (0 <= q <= 70)%Q.

(** *** The constraints declared on the inputs

    The form has no [noValidate]: on a submission the browser checks the
    constraints that the attributes of each input declare, and fires the
    [submit] event, hence [handleSubmit], only if all of them hold. *)

Inductive InputType := TextInput | NumberInput.

Record Input := {
  input_name : string;
  input_type : InputType;
  input_required : bool;
  input_min : option Q;
  input_max : option Q;
  input_step : option Q
}.

Definition inputs : list Input :=
  [ {| input_name := "current_location"; input_type := TextInput;
       input_required := true;
       input_min := None; input_max := None; input_step := None |};
    {| input_name := "pickup_location"; input_type := TextInput;
       input_required := true;
       input_min := None; input_max := None; input_step := None |};
    {| input_name := "dropoff_location"; input_type := TextInput;
       input_required := true;
       input_min := None; input_max := None; input_step := None |};
    {| input_name := "current_cycle_used"; input_type := NumberInput;
       input_required := true;
       input_min := Some 0%Q; input_max := Some 70%Q;
       input_step := Some 0.5%Q |} ].

(** A valid floating-point number of the HTML standard: an optional [-];
    digits, or digits followed by a fraction of at least one digit, or
    such a fraction alone; an optional exponent of at least one digit;
    nothing before and nothing after. *)
Definition validFloatingPointNumber (s : string) : bool :=
  let r := match s with String "-" rest => rest | _ => s end in
  let '(_, ni, r1) := digits r 0 0 in
  let '(nf, r2) :=
    match r1 with
    | String "." t => let '(_, n, t') := digits t 0 0 in (Some n, t')
    | _ => (None, r1)
    end in
  let mantissa :=
    match nf with
    | Some n => (0 <? n)%nat
    | None => (0 <? ni)%nat
    end in
  let '(ne, r3) :=
    match r2 with
    | String c t =>
        if (c =? "e")%char || (c =? "E")%char then
          let '(_, t1) := sign t in
          let '(_, n, t2) := digits t1 0 0 in (Some n, t2)
        else (None, r2)
    | EmptyString => (None, r2)
    end in
  let exponent :=
    match ne with
    | Some n => (0 <? n)%nat
    | None => true
    end in
  mantissa && exponent && String.eqb r3 "".

(** The value a number input holds for what was typed into it (the value
    sanitization algorithm): anything that is not a valid floating-point
    number is replaced by the empty string. *)
Definition sanitize (ty : InputType) (typed : string) : string :=
  match ty with
  | TextInput => typed
  | NumberInput => if validFloatingPointNumber typed then typed else ""
  end.

Definition le_opt (lo : option Q) (x : Q) : bool :=
  match lo with Some m => Qle_bool m x | None => true end.

Definition ge_opt (hi : option Q) (x : Q) : bool :=
  match hi with Some m => Qle_bool x m | None => true end.

(** No step mismatch: [x] is the step base (the minimum, else 0) plus an
    integral multiple of the step. *)
Definition on_step (lo step : option Q) (x : Q) : bool :=
  match step with
  | Some st =>
      let k := ((x - default 0%Q lo) / st)%Q in
      Qeq_bool (inject_Z (Qfloor k)) k
  | None => true
  end.

(** The input satisfies its constraints for the value it holds: it is not
    missing when required and, for a number input, the number it holds
    does not underflow, overflow or miss the step. *)
Definition satisfiesConstraints (i : Input) (value : string) : bool :=
  match sanitize (input_type i) value with
  | EmptyString => negb (input_required i)
  | v =>
      match input_type i with
      | TextInput => true
      | NumberInput =>
          match parseFloat v with
          | Fin x =>
              le_opt (input_min i) x && ge_opt (input_max i) x
              && on_step (input_min i) (input_step i) x
          | _ => false
          end
      end
  end.

(** The controlled value of the input called [name]. *)
Definition valueOf (formData : FormData) (name : string) : string :=
  if String.eqb name "current_location" then current_location formData
  else if String.eqb name "pickup_location" then pickup_location formData
  else if String.eqb name "dropoff_location" then dropoff_location formData
  else if String.eqb name "current_cycle_used" then current_cycle_used formData
  else "".

Definition checkValidity (formData : FormData) : bool :=
  forallb (fun i => satisfiesConstraints i (valueOf formData (input_name i)))
          inputs.

(** A submission of the form: the request data passed to [onSubmit], or
    [None] when the browser blocks the submission. *)
Definition submit (formData : FormData) : option TripData :=
  if checkValidity formData then Some (handleSubmit formData) else None.

End TripForm.

(** ** services/api.js and App.js *)

Module App.
Import JS.
Local Open Scope string_scope.

(** An object in the body of a response, by the three properties that the
    page reads from it: [route], [schedule] and [logs]; a property that is
    absent reads [undefined]. *)
Record Response := {
  route : option RouteMap.RouteData;
  schedule : array_prop ELDLogViewer.DaySchedule;
  logs : array_prop ELDLogViewer.Log
}.

(** [response.data]: whatever the body of the response holds.  A JSON
    body is [null], a boolean, a number, a string, an array or an object;
    a body that is empty or is not JSON is handed on as its text. *)
Inductive Body :=
| BNull
| BBool (b : bool)
| BNumber (q : Q)
| BText (s : string)
| BArray
| BObject (r : Response).

(** Truthiness of a body: [null], [false], [0] and the empty string are
    falsy. *)
Definition truthy (b : Body) : bool :=
  match b with
  | BNull => false
  | BBool t => t
  | BNumber q => negb (Qeq_bool q 0)
  | BText s => truthy_string s
  | BArray | BObject _ => true
  end.

(** What a rejected request throws, as far as [handleSubmit] looks at it:
    [err?.response?.data?.error] and [err?.message], [None] standing for
    [undefined] anywhere along the chain. *)
Record Failure := {
  response_data_error : option string;
  message : option string
}.

(** How the awaited [axios.post] settles. *)
Inductive Settled (A : Type) :=
| Resolved (value : A)
| Rejected (err : Failure).
Arguments Resolved {A} value.
Arguments Rejected {A} err.

(** An HTTP response as axios presents it. *)
Record AxiosResponse := { data : Body }.

(** [planTrip]: post the trip data, return [response.data]. *)
Definition planTrip (post : TripForm.TripData -> Settled AxiosResponse)
    (tripData : TripForm.TripData) : Settled Body :=
  match post tripData with
  | Resolved response => Resolved (data response)
  | Rejected err => Rejected err
  end.

(** *** The component state and its setters

    [error] is [null] ([None]) or a message; [result] is [null] ([BNull])
    or what [planTrip] returned. *)

Record State := {
  loading : bool;
  error : option string;
  result : Body
}.

Definition initialState : State :=
  {| loading := false; error := None; result := BNull |}.

Definition M (A : Type) : Type := State -> A * State.

#[export] Instance M_ret : MRet M := fun A (a : A) st => (a, st).

#[export] Instance M_bind : MBind M :=
  fun A B (k : A -> M B) (m : M A) st => let '(a, st') := m st in k a st'.

Definition setLoading (b : bool) : M unit :=
  fun st => (tt, {| loading := b; error := error st; result := result st |}).

Definition setError (e : option string) : M unit :=
  fun st => (tt, {| loading := loading st; error := e; result := result st |}).

Definition setResult (r : Body) : M unit :=
  fun st => (tt, {| loading := loading st; error := error st; result := r |}).

Definition exec {A} (m : M A) (st : State) : State := snd (m st).

(** [err?.response?.data?.error || err?.message || '...'] *)
Definition errorMessage (err : Failure) : string :=
  or_string (default "" (response_data_error err))
    (or_string (default "" (message err))
       "An unexpected error occurred. Please try again.").

Definition handleSubmit (post : TripForm.TripData -> Settled AxiosResponse)
    (formData : TripForm.TripData) : M unit :=
  setLoading true ;;
  setError None ;;
  setResult BNull ;;
  match planTrip post formData with
  | Resolved data => setResult data
  | Rejected err => setError (Some (errorMessage err))
  end ;;
  setLoading false.

(** The form inside the application ([<TripForm onSubmit={handleSubmit}
    .../>]): a submission that passes the browser's checks runs
    [handleSubmit] on the data that the form's own [handleSubmit] builds;
    a submission that does not pass runs nothing. *)
Definition submitTripForm (post : TripForm.TripData -> Settled AxiosResponse)
    (formData : TripForm.FormData) : M (option TripForm.TripData) :=
  match TripForm.submit formData with
  | Some tripData => handleSubmit post tripData ;; mret (Some tripData)
  | None => mret None
  end.

End App.

(** ** Sample data, after the README's API reference *)

Module Samples.
Import ELDLogViewer.
Local Open Scope string_scope.
Local Open Scope Q_scope.

Definition sampleDay : DaySchedule :=
  {| day := 1; date_offset := 0;
     events :=
       [ {| time := 0; status := "off_duty"; location := "Chicago, IL"; remark := "" |};
         {| time := 6; status := "on_duty"; location := "Chicago, IL";
            remark := "Pre-trip inspection" |};
         {| time := 7; status := "driving"; location := "Chicago, IL"; remark := "" |} ];
     totals := Some (<["off_duty" := 12]> (<["sleeper_berth" := 0]>
                      (<["driving" := 11]> (<["on_duty" := 1]> ∅)))) |}.

Definition sampleLogs : list Log :=
  [ {| log_day := 1; log_date_offset := 0; image_base64 := "iVBOR" |} ].

(** A leg with the properties that RouteMap.js reads. *)
Definition codeLeg : gmap string RouteMap.value :=
  <["from_location" := RouteMap.VStr "Chicago, IL"]>
    (<["to_location" := RouteMap.VStr "Milwaukee, WI"]>
       (<["distance_meters" := RouteMap.VNum 148000]>
          (<["duration_seconds" := RouteMap.VNum 5400]> ∅))).

(** A leg with the fields of the Leg record [{from_label, to_label,
    duration_hours, distance_miles}]. *)
Definition specLeg : gmap string RouteMap.value :=
  <["from_label" := RouteMap.VStr "Chicago, IL"]>
    (<["to_label" := RouteMap.VStr "Milwaukee, WI"]>
       (<["duration_hours" := RouteMap.VNum 1.5]>
          (<["distance_miles" := RouteMap.VNum 92]> ∅))).

(** A leg of nine minutes. *)
Definition shortLeg : gmap string RouteMap.value :=
  <["from_location" := RouteMap.VStr "Depot"]>
    (<["to_location" := RouteMap.VStr "Yard"]>
       (<["distance_meters" := RouteMap.VNum 12070]>
          (<["duration_seconds" := RouteMap.VNum 540]> ∅))).

Definition sampleForm (cycle : string) : TripForm.FormData :=
  {| TripForm.current_location := "Chicago, IL";
     TripForm.pickup_location := "Milwaukee, WI";
     TripForm.dropoff_location := "Minneapolis, MN";
     TripForm.current_cycle_used := cycle |}.

End Samples.

(** ** The log renderer's coordinate mapping *)

Module LogRenderer.
Local Open Scope Q_scope.




End LogRenderer.

(** ** The duty-schedule engine *)

Module Engine.
Local Open Scope string_scope.
Local Open Scope Q_scope.

(** Modelled from the spec: the data model of section 3, for the engine
    (trips/utils/hos_calculator.py of the back end), which is not among the
    sources. *)
Inductive DutyStatus := OffDuty | SleeperBerth | Driving | OnDutyNotDriving.


(** Modelled from the spec: the kinds of the named waypoints of 4.1. *)
Inductive WaypointKind := CurrentLocation | Pickup | Dropoff.



(** Modelled from the spec: the running counters of section 3. *)
Record CycleState := {
  driving_since_break_hours : Q;
  driving_this_shift_hours : Q;
  onduty_window_elapsed_hours : Q;
  cycle_hours_remaining : Q
}.

(** Modelled from the spec: an event of the continuous timeline of 4.2,
    with its start in hours from the start of the trip and its length. *)
Record TimelineEvent := {
  start : Q;
  hours : Q;
  status : DutyStatus;
  location : string;
  remark : string
}.

(** What is still to be done: driving a leg, or an on-duty block. *)
Inductive TaskKind := Drive | Work.

(** A task with the hours that remain of it, the waypoint it is logged at
    and its remark. *)
Record Task := {
  kind : TaskKind;
  remaining : Q;
  place : string;
  note : string
}.

(** The state of a simulation: the elapsed time, the counters, the
    timeline so far and the tasks ahead. *)
Record Sim := {
  now : Q;
  counters : CycleState;
  timeline : list TimelineEvent;
  tasks : list Task
}.

(** Modelled from the spec: the limits and the lengths of the pauses of
    4.1, in hours. *)
Definition BREAK_AFTER : Q := 8.
Definition BREAK_HOURS : Q := 0.5.
Definition SHIFT_DRIVING_CAP : Q := 11.
Definition WINDOW_CAP : Q := 14.
Definition REST_HOURS : Q := 10.
Definition RESTART_HOURS : Q := 34.
Definition CYCLE_HOURS : Q := 70.

(** The off-duty insertions of the algorithm. *)
Inductive Pause := Restart | Rest | Break.

Definition is_drive (k : TaskKind) : bool :=
  match k with Drive => true | Work => false end.

(** Modelled from the spec: the limit of 4.1 that stands in the way of
    going on with a task of kind [k], if any: an exhausted cycle before
    the shift limits, and those before the break; the two driving counters
    bind driving only. *)
Definition pending (c : CycleState) (k : TaskKind) : option Pause :=
  if Qle_bool (cycle_hours_remaining c) 0 then Some Restart
  else if Qle_bool WINDOW_CAP (onduty_window_elapsed_hours c)
          || (is_drive k && Qle_bool SHIFT_DRIVING_CAP (driving_this_shift_hours c))
  then Some Rest
  else if is_drive k && Qle_bool BREAK_AFTER (driving_since_break_hours c)
  then Some Break
  else None.

(** Modelled from the spec: 34, 10 and 0.5 hours off duty (4.1). *)
Definition pause_hours (p : Pause) : Q :=
  match p with
  | Restart => RESTART_HOURS
  | Rest => REST_HOURS
  | Break => BREAK_HOURS
  end.

(** The remark that the event of a pause carries. *)
Definition pause_remark (p : Pause) : string :=
  match p with
  | Restart => "34-hour restart"
  | Rest => "10-hour rest"
  | Break => "30-minute break"
  end.

(** Modelled from the spec: the counters after a pause (4.1): a break
    clears the driving time since the last break and nothing else; a rest
    clears the three shift counters; a restart also refills the cycle. *)
Definition after_pause (p : Pause) (c : CycleState) : CycleState :=
  match p with
  | Break =>
      {| driving_since_break_hours := 0;
         driving_this_shift_hours := driving_this_shift_hours c;
         onduty_window_elapsed_hours := onduty_window_elapsed_hours c;
         cycle_hours_remaining := cycle_hours_remaining c |}
  | Rest =>
      {| driving_since_break_hours := 0;
         driving_this_shift_hours := 0;
         onduty_window_elapsed_hours := 0;
         cycle_hours_remaining := cycle_hours_remaining c |}
  | Restart =>
      {| driving_since_break_hours := 0;
         driving_this_shift_hours := 0;
         onduty_window_elapsed_hours := 0;
         cycle_hours_remaining := CYCLE_HOURS |}
  end.

(** Modelled from the spec: how long a task of kind [k] can go on before
    one of the limits of 4.1 is reached. *)
Definition slack (c : CycleState) (k : TaskKind) : Q :=
  let shift :=
    Qmin (WINDOW_CAP - onduty_window_elapsed_hours c) (cycle_hours_remaining c) in
  match k with
  | Drive =>
      Qmin (Qmin (BREAK_AFTER - driving_since_break_hours c)
                 (SHIFT_DRIVING_CAP - driving_this_shift_hours c))
           shift
  | Work => shift
  end.

(** Modelled from the spec: the counters after [h] hours of a task of
    kind [k] (4.1, steps 2 and 3): driving counts against all four, an
    on-duty block against the window and the cycle. *)
Definition after_hours (k : TaskKind) (h : Q) (c : CycleState) : CycleState :=
  match k with
  | Drive =>
      {| driving_since_break_hours := driving_since_break_hours c + h;
         driving_this_shift_hours := driving_this_shift_hours c + h;
         onduty_window_elapsed_hours := onduty_window_elapsed_hours c + h;
         cycle_hours_remaining := cycle_hours_remaining c - h |}
  | Work =>
      {| driving_since_break_hours := driving_since_break_hours c;
         driving_this_shift_hours := driving_this_shift_hours c;
         onduty_window_elapsed_hours := onduty_window_elapsed_hours c + h;
         cycle_hours_remaining := cycle_hours_remaining c - h |}
  end.

(** The duty status during a task. *)
Definition status_of (k : TaskKind) : DutyStatus :=
  match k with Drive => Driving | Work => OnDutyNotDriving end.

(** Modelled from the spec: the pause [p] inserted at the current place
    and time, as an off-duty event. *)
Definition insert_pause (p : Pause) (where_ : string) (s : Sim) : Sim :=
  {| now := now s + pause_hours p;
     counters := after_pause p (counters s);
     timeline :=
       timeline s ++ [ {| start := now s; hours := pause_hours p;
                          status := OffDuty; location := where_;
                          remark := pause_remark p |} ];
     tasks := tasks s |}.

(** Modelled from the spec: going on with the task [task] for [h] hours,
    as one event; the task is done when [h] is all that remained of it. *)
Definition advance (task : Task) (rest : list Task) (h : Q) (s : Sim) : Sim :=
  {| now := now s + h;
     counters := after_hours (kind task) h (counters s);
     timeline :=
       timeline s ++ [ {| start := now s; hours := h;
                          status := status_of (kind task);
                          location := place task; remark := note task |} ];
     tasks :=
       if Qle_bool (remaining task) h then rest
       else {| kind := kind task; remaining := remaining task - h;
               place := place task; note := note task |} :: rest |}.

(** Modelled from the spec: one step of the simulation of 4.1 (the
    engine is trips/utils/hos_calculator.py of the back end, which is not
    among the sources).  When a limit stands in the way of the task at
    hand, the matching off-duty block is inserted: 34 hours when the
    cycle is used up, 10 hours when the shift's driving reaches 11 hours
    or its window 14 hours, 0.5 hours when the driving since the last
    break reaches 8 hours.  Otherwise the task goes on until it is done or
    the first limit is reached, which splits its event there.  Limits
    reached at the same instant lead to one insertion.  Adjacent events
    of equal status are not merged here. *)
Definition step (s : Sim) : option Sim :=
  match tasks s with
  | [] => None
  | task :: rest =>
      match pending (counters s) (kind task) with
      | Some p => Some (insert_pause p (place task) s)
      | None =>
          Some (advance task rest
                  (Qmin (remaining task) (slack (counters s) (kind task))) s)
      end
  end.


(** *** Setting up a trip *)






(** *** A bound on the number of steps *)








(** *** The 8-hour rule on a timeline *)




(** *** Invariants of the simulation *)






End Engine.

(** ** The day splitter *)

Module DaySplitter.
Import Engine.
Local Open Scope string_scope.
Local Open Scope Q_scope.

(** Modelled from the spec: the DutyEvent, DayTotals and DaySchedule of
    section 3, as the day splitter (part of hos_calculator.py, not among the
    sources) produces them. *)
Record DutyEvent := {
  time_of_day_hours : Q;
  event_status : DutyStatus;
  event_location : string;
  event_remark : string
}.

(** The hours of a day per duty status. *)
Definition DayTotals : Type := DutyStatus -> Q.

Record DaySchedule := {
  day_index : nat;
  date_offset : nat;
  events : list DutyEvent;
  totals : DayTotals
}.

Definition DAY_HOURS : Q := 24.

Definition day_start (d : nat) : Q := DAY_HOURS * inject_Z (Z.of_nat d).
















(** Modelled from the spec: the day in the shape of the JSON response
    (section 6): [day], [date_offset],
    events with a [time] and one of the four status strings, and [totals]
    keyed by the same four strings. *)
Definition status_key (s : DutyStatus) : string :=
  match s with
  | OffDuty => "off_duty"
  | SleeperBerth => "sleeper_berth"
  | Driving => "driving"
  | OnDutyNotDriving => "on_duty"
  end.

Definition totals_json (t : DayTotals) : gmap string Q :=
  <[status_key OffDuty := t OffDuty]>
    (<[status_key SleeperBerth := t SleeperBerth]>
       (<[status_key Driving := t Driving]>
          (<[status_key OnDutyNotDriving := t OnDutyNotDriving]> ∅))).

Definition event_json (e : DutyEvent) : ELDLogViewer.DutyEvent :=
  {| ELDLogViewer.time := time_of_day_hours e;
     ELDLogViewer.status := status_key (event_status e);
     ELDLogViewer.location := event_location e;
     ELDLogViewer.remark := event_remark e |}.

Definition day_json (d : DaySchedule) : ELDLogViewer.DaySchedule :=
  {| ELDLogViewer.day := Z.of_nat (day_index d);
     ELDLogViewer.date_offset := Z.of_nat (date_offset d);
     ELDLogViewer.events := map event_json (events d);
     ELDLogViewer.totals := Some (totals_json (totals d)) |}.



End DaySplitter.

(** ** Sample trips *)

Module Trips.
Import Engine.
Local Open Scope string_scope.
Local Open Scope Q_scope.

Definition waypoints : gmap string WaypointKind :=
  <["Chicago, IL" := CurrentLocation]>
    (<["Milwaukee, WI" := Pickup]> (<["Minneapolis, MN" := Dropoff]> ∅)).




End Trips.

(** ** App.js: what is on the page *)

Module AppView.
Import JS App.
Local Open Scope string_scope.

(** The state-dependent parts of the page: the submit button of the form
    ([disabled={loading}] and its label), the error banner
    ([{error && ...}]), the loading block ([{loading && ...}]) and the
    results section ([{result && ...}]), which is given the result (for a
    result of [0] there is no section; the text 0 that React leaves in its
    place is not recorded). *)
Record Page := {
  submit_disabled : bool;
  submit_label : string;
  error_banner : option string;
  loading_block : bool;
  results_section : option Body
}.

Definition render (st : State) : Page :=
  {| submit_disabled := loading st;
     submit_label := if loading st then "Planning Route…" else "Plan Trip";
     error_banner :=
       match error st with
       | Some msg => if truthy_string msg then Some msg else None
       | None => None
       end;
     loading_block := loading st;
     results_section := if truthy (result st) then Some (result st) else None |}.

(** [handleSubmit] up to its [await]: the three setters that run before
    the request is sent. *)
Definition beforeAwait : M unit :=
  setLoading true ;;
  setError None ;;
  setResult BNull.

(** [handleSubmit] from its [await] on, once the request has settled: the
    branch of the [try]/[catch], then the [finally]. *)
Definition afterAwait (settled : Settled Body) : M unit :=
  match settled with
  | Resolved data => setResult data
  | Rejected err => setError (Some (errorMessage err))
  end ;;
  setLoading false.

End AppView.

(** ** components/RouteMap.js: the statistics and the map layers *)

Module RouteMapView.
Import JS.
Local Open Scope string_scope.

(** [x % 1] on a finite number: what is left of [x] once its integral
    part, rounded towards zero, is taken away. *)
Definition trunc (x : Q) : Z := if Qle_bool 0 x then Qfloor x else Qceiling x.

Definition rem1 (x : Q) : Q := (x - inject_Z (trunc x))%Q.

(** The "Drive Time" figure,
    [{Math.floor(totalHours)}h {Math.round((totalHours % 1) * 60)}m]; on
    [undefined] both [Math.floor] and [Math.round] give [NaN]. *)
Definition driveTime (totalHours : option Q) : string :=
  match totalHours with
  | Some h =>
      toString (floor h) +:+ "h " +:+ toString (round (rem1 h * 60)%Q) +:+ "m"
  | None => "NaNh NaNm"
  end.

Definition WAYPOINT_COLORS : list (string * string) :=
  [ ("Current Location", "#2b6cb0");
    ("Pickup", "#276749");
    ("Dropoff", "#c53030") ].

Definition WAYPOINT_LABELS : list (string * string) :=
  [ ("Current Location", "S");
    ("Pickup", "P");
    ("Dropoff", "D") ].

(** The properties that every object literal inherits from
    [Object.prototype]. *)
Definition inheritedNames : list string :=
  [ "constructor"; "hasOwnProperty"; "isPrototypeOf"; "propertyIsEnumerable";
    "toLocaleString"; "toString"; "valueOf"; "__proto__";
    "__defineGetter__"; "__defineSetter__"; "__lookupGetter__";
    "__lookupSetter__" ].

(** What goes into the icon: a text, or the inherited member that a read
    such as [WAYPOINT_COLORS["toString"]] yields, which is truthy. *)
Inductive IconPart :=
| Text (s : string)
| Member (name : string).

(** [obj[key] || fallback] on one of the two object literals. *)
Definition lookupOr (obj : list (string * string)) (key fallback : string)
  : IconPart :=
  match ELDLogViewer.get obj key with
  | Some v => Text (or_string v fallback)
  | None =>
      if existsb (String.eqb key) inheritedNames then Member key
      else Text fallback
  end.

Record Waypoint := {
  label : string;
  lat : Q;
  lon : Q;
  display_name : string
}.

(** A layer of the layer group: the line of the route by its points (its
    fixed colour, weight and opacity are left out), or a marker by its
    position, the colour and the letter of its icon, and the label and the
    display name that its popup shows. *)
Inductive Layer :=
| Polyline (latlngs : list (Q * Q))
| Marker (at_lat at_lon : Q) (color letter : IconPart) (popup : string * string).

(** [L.marker([wp.lat, wp.lon], { icon }).bindPopup(...)] *)
Definition marker (wp : Waypoint) : Layer :=
  Marker (lat wp) (lon wp)
    (lookupOr WAYPOINT_COLORS (label wp) "#4a5568")
    (lookupOr WAYPOINT_LABELS (label wp) "?")
    (label wp, display_name wp).

(** [geometry.coordinates.map(([lng, lat]) => [lat, lng])] *)
Definition latlngs (coordinates : list (Q * Q)) : list (Q * Q) :=
  map (fun p => (snd p, fst p)) coordinates.

(** The [geometry] of the route: an object with [coordinates], or an
    object without them. *)
Record Geometry := {
  coordinates : option (list (Q * Q))
}.

(** What the second effect reads of [routeData]. *)
Record Route := {
  waypoints : option (list Waypoint);
  geometry : option Geometry
}.

(** The map as far as the effect changes it: the layers of the layer
    group and the bounds last passed to [fitBounds]. *)
Record MapState := {
  layers : list Layer;
  fitted : option (list (Q * Q))
}.

(** The second effect, run when [routeData] changes; [ready] says that
    the map and the layer group exist. *)
Definition drawRoute (ready : bool) (routeData : option Route) (m : MapState)
  : MapState :=
  match ready, routeData with
  | true, Some r =>
      let polyline :=
        match geometry r with
        | Some g =>
            match coordinates g with
            | Some cs => [Polyline (latlngs cs)]
            | None => []
            end
        | None => []
        end in
      let wps := default [] (waypoints r) in
      let bounds := map (fun wp => (lat wp, lon wp)) wps in
      {| layers := polyline ++ map marker wps;
         fitted := match bounds with [] => fitted m | _ => Some bounds end |}
  | _, _ => m
  end.

End RouteMapView.

(** * Properties *)

Section JsArith.
Local Open Scope Q_scope.

Lemma floor_le (x : Q) : inject_Z (JS.floor x) <= x.
Proof. apply Qfloor_le. Qed.

Lemma floor_lt (x : Q) : x < inject_Z (JS.floor x) + 1.
Proof.
  pose proof (Qlt_floor x) as H. rewrite inject_Z_plus in H. exact H.
Qed.

Lemma frac_range (x : Q) :
  0 <= x - inject_Z (JS.floor x) /\ x - inject_Z (JS.floor x) < 1.
Proof.
  pose proof (floor_le x). pose proof (floor_lt x). split; lra.
Qed.

Lemma floor_bounds (x : Q) (lo hi : Z) :
  inject_Z lo <= x -> x < inject_Z hi + 1 -> (lo <= JS.floor x <= hi)%Z.
Proof.
  intros Hlo Hhi. unfold JS.floor. split.
  - rewrite <- (Qfloor_Z lo). now apply Qfloor_resp_le.
  - assert (Qfloor x < hi + 1)%Z; [|lia].
    rewrite Zlt_Qlt, inject_Z_plus. pose proof (Qfloor_le x) as Hf.
    change (inject_Z 1) with 1. lra.
Qed.

Lemma round_bounds (x : Q) (lo hi : Z) :
  inject_Z lo - (1 # 2) <= x -> x < inject_Z hi + (1 # 2) ->
  (lo <= JS.round x <= hi)%Z.
Proof.
  intros Hlo Hhi. unfold JS.round. apply floor_bounds; lra.
Qed.

End JsArith.

(** ** ELDLogViewer.js: [formatHours] and the event table *)

Section FormatHours.
Import JS ELDLogViewer.
Local Open Scope Q_scope.

Lemma minutes_range (h : Q) :
  (0 <= round ((h - inject_Z (floor h)) * 60) <= 60)%Z.
Proof.
  destruct (frac_range h) as [H0 H1].
  set (f := h - inject_Z (floor h)) in *.
  apply round_bounds; unfold inject_Z; lra.
Qed.

(** The carry case: the printed minutes are 60 exactly when the fractional
    part of [h] is at least 59.5 minutes. *)
Lemma minutes_sixty (h : Q) :
  round ((h - inject_Z (floor h)) * 60) = 60%Z
  <-> 59.5 / 60 <= h - inject_Z (floor h).
Proof.
  destruct (frac_range h) as [H0 H1].
  set (f := h - inject_Z (floor h)) in *.
  assert (59.5 / 60 == 119 # 120) as -> by reflexivity. split.
  - intros E. pose proof (floor_le (f * 60 + (1 # 2))) as Hf.
    unfold round in E. unfold floor in Hf. rewrite E in Hf.
    change (inject_Z 60) with 60 in Hf. lra.
  - intros Hge.
    assert (60 <= round (f * 60) <= 60)%Z as [? ?]; [|lia].
    apply round_bounds; unfold inject_Z; lra.
Qed.

Lemma formatHours_proper (h h' : Q) : h == h' -> formatHours h = formatHours h'.
Proof.
  intros E. unfold formatHours, floor, round.
  rewrite (Qfloor_comp h h' E).
  rewrite (Qfloor_comp ((h - inject_Z (Qfloor h')) * 60 + (1 # 2))
                       ((h' - inject_Z (Qfloor h')) * 60 + (1 # 2))).
  - reflexivity.
  - rewrite E. reflexivity.
Qed.

(** C10. For a non-negative [h], [formatHours h] prints [floor h] hours and
    [round ((h - floor h) * 60)] minutes; the minutes lie in [0, 60], and
    they are exactly 60 whenever the fractional part of [h] exceeds
    59.5/60, as for [h = 1.999], which prints as "1h 60m": the carry is
    not propagated to the hours. *)
Theorem formatHours_minutes_up_to_sixty (h : Q) :
  0 <= h ->
  let hrs := floor h in
  let mins := round ((h - inject_Z hrs) * 60) in
  formatHours h
    = (toString hrs +:+ "h " +:+ padStart 2 "0" (toString mins) +:+ "m")%string
  /\ (0 <= hrs)%Z
  /\ (0 <= mins <= 60)%Z
  /\ (59.5 / 60 < h - inject_Z hrs -> mins = 60%Z)
  /\ formatHours 1.999 = "1h 60m"%string.
Proof.
  intros Hh hrs mins. repeat split.
  - apply (floor_bounds h 0 (floor h)); [exact Hh | apply floor_lt].
  - apply (minutes_range h).
  - apply (minutes_range h).
  - intros Hf. apply (minutes_sixty h). apply Qlt_le_weak. exact Hf.
Qed.

Lemma formatHours_minutes_up_to_sixty_witness :
  0 <= 1.999
  /\ 59.5 / 60 < 1.999 - inject_Z (floor 1.999)
  /\ round ((1.999 - inject_Z (floor 1.999)) * 60) = 60%Z.
Proof.
  assert (0 <= 1.999) as H0 by discriminate.
  assert (59.5 / 60 < 1.999 - inject_Z (floor 1.999)) as Hf by reflexivity.
  split; [exact H0|]. split; [exact Hf|].
  exact (proj1 (proj2 (proj2 (proj2 (formatHours_minutes_up_to_sixty 1.999 H0))))
           Hf).
Defined.

End FormatHours.

Section EventTable.
Import JS ELDLogViewer Samples.
Local Open Scope Q_scope.

Lemma scheduleRows_lookup (d : DaySchedule) (i : nat) :
  scheduleRows d !! i = eventRow (events d) i <$> events d !! i.
Proof. unfold scheduleRows. apply list_lookup_imap. Qed.

Lemma endTime_next (evs : list DutyEvent) (i : nat) (next : DutyEvent) :
  evs !! S i = Some next -> endTime evs i = time next.
Proof.
  intros H. unfold endTime. replace (i + 1)%nat with (S i) by lia.
  now rewrite H.
Qed.

Lemma endTime_last (evs : list DutyEvent) (i : nat) :
  S i = length evs -> endTime evs i = 24.
Proof.
  intros H. unfold endTime. replace (i + 1)%nat with (S i) by lia.
  rewrite (proj2 (lookup_ge_None evs (S i))); [reflexivity | lia].
Qed.

(** C6. Every event of a day has a row in the table; the end time of the
    row is the start time of the next event, or 24 for the last event of
    the day, and the duration the row shows (in place of an empty remark)
    is that end time minus the event's own time. *)
Theorem event_row_end_and_duration (d : DaySchedule) (i : nat) (ev : DutyEvent) :
  events d !! i = Some ev ->
  (forall next, events d !! S i = Some next -> endTime (events d) i = time next)
  /\ (S i = length (events d) -> endTime (events d) i = 24)
  /\ (events d !! S i = None <-> S i = length (events d))
  /\ duration (events d) i ev = endTime (events d) i - time ev
  /\ exists row,
       snd (dayScheduleView d true) = Some (scheduleRows d)
       /\ scheduleRows d !! i = Some row
       /\ row_remark row
          = or_string (remark ev)
              ("(" +:+ formatHours (endTime (events d) i - time ev) +:+ ")")%string.
Proof.
  intros Hev. split; [|split; [|split; [|split]]].
  - intros next. apply endTime_next.
  - apply endTime_last.
  - rewrite lookup_ge_None. apply lookup_lt_Some in Hev. lia.
  - reflexivity.
  - exists (eventRow (events d) i ev). split; [reflexivity|]. split.
    + rewrite scheduleRows_lookup, Hev. reflexivity.
    + reflexivity.
Qed.

Lemma event_row_end_and_duration_witness :
  exists row, scheduleRows sampleDay !! 2%nat = Some row
              /\ row_remark row = "(17h 00m)"%string.
Proof.
  destruct (event_row_end_and_duration sampleDay 2
              {| time := 7; status := "driving"; location := "Chicago, IL";
                 remark := "" |} eq_refl)
    as (_ & _ & _ & _ & row & _ & Hrow & Hrem).
  exists row. split; [exact Hrow | exact Hrem].
Defined.

End EventTable.

(** ** ELDLogViewer.js: the totals panel and the component's first render *)

Section Viewer.
Import JS ELDLogViewer Samples.
Local Open Scope Q_scope.

Lemma or_zero_default (v : option Q) : or_zero v == default 0 v.
Proof.
  destruct v as [q|]; simpl; [|reflexivity].
  destruct (Qeq_bool q 0) eqn:E; [|reflexivity].
  apply Qeq_bool_iff in E. now rewrite E.
Qed.

Lemma totalOnDuty_sum (t : gmap string Q) :
  totalOnDuty t == default 0 (t !! "driving"%string) + default 0 (t !! "on_duty"%string).
Proof. unfold totalOnDuty. now rewrite !or_zero_default. Qed.

Lemma render_view_inv (logs : array_prop Log) (schedule : array_prop DaySchedule)
    (activeDay : nat) (expanded : bool) (v : View) :
  render logs schedule activeDay expanded = RenderView v ->
  view_totals v
  = match scheduleAt schedule activeDay with
    | Some s => totalsPanel <$> totals s
    | None => None
    end.
Proof.
  destruct logs as [| |[|log rest]]; simpl; try discriminate.
  unfold renderLogs. destruct (_ !! activeDay); [|discriminate].
  intros [= <-]. reflexivity.
Qed.

(** C7. Whenever the totals of a day are displayed, the figure after
    "Total On-Duty:" is [formatHours] of [totals.driving + totals.on_duty]
    of that day, a missing key counting as 0. *)
Theorem total_on_duty_is_driving_plus_on_duty
    (logs : array_prop Log) (schedule : array_prop DaySchedule)
    (activeDay : nat) (expanded : bool) (v : View) (panel : TotalsPanel) :
  render logs schedule activeDay expanded = RenderView v ->
  view_totals v = Some panel ->
  exists (s : DaySchedule) (t : gmap string Q),
    scheduleAt schedule activeDay = Some s
    /\ totals s = Some t
    /\ totalOnDuty t
       == default 0 (t !! "driving"%string) + default 0 (t !! "on_duty"%string)
    /\ panel_combined panel
       = formatHours (default 0 (t !! "driving"%string)
                      + default 0 (t !! "on_duty"%string)).
Proof.
  intros Hr Hp. rewrite (render_view_inv _ _ _ _ _ Hr) in Hp.
  destruct (scheduleAt schedule activeDay) as [s|]; [|discriminate].
  destruct (totals s) as [t|] eqn:Ht; [|discriminate].
  injection Hp as <-. exists s, t. repeat split.
  - exact Ht.
  - apply totalOnDuty_sum.
  - simpl. apply formatHours_proper, totalOnDuty_sum.
Qed.

Lemma total_on_duty_is_driving_plus_on_duty_witness :
  exists v panel,
    render (Arr sampleLogs) (Arr [sampleDay]) 0 false = RenderView v
    /\ view_totals v = Some panel
    /\ panel_combined panel = "12h 00m"%string.
Proof.
  eexists. eexists.
  split; [reflexivity|]. split; [reflexivity|].
  destruct (total_on_duty_is_driving_plus_on_duty
              (Arr sampleLogs) (Arr [sampleDay]) 0 false _ _ eq_refl eq_refl)
    as (s & t & Hs & Ht & _ & Hc).
  injection Hs as <-. injection Ht as <-. exact Hc.
Defined.

(** C9. When [logs] is [null], [undefined] or the empty array the
    component renders nothing, for any [schedule] and any value of its
    state; for a non-empty array the first render shows the log at
    index 0, with the first tab, and only that tab, marked active. *)
Theorem viewer_null_on_no_logs_else_first_day
    (schedule : array_prop DaySchedule) :
  (forall activeDay expanded,
      render Null schedule activeDay expanded = RenderNull)
  /\ (forall activeDay expanded,
        render Undefined schedule activeDay expanded = RenderNull)
  /\ (forall activeDay expanded,
        render (Arr []) schedule activeDay expanded = RenderNull)
  /\ forall (log : Log) (rest : list Log),
       exists v,
         initialRender (Arr (log :: rest)) schedule = RenderView v
         /\ view_image_src v
            = ("data:image/png;base64," +:+ image_base64 log)%string
         /\ view_image_alt v = ("ELD Log Day " +:+ toString (log_day log))%string
         /\ view_tabs v !! 0%nat
            = Some (("Day " +:+ toString (log_day log))%string, true)
         /\ (forall i tab, view_tabs v !! S i = Some tab -> snd tab = false)
         /\ length (view_tabs v) = length (log :: rest).
Proof.
  repeat split; try reflexivity.
  intros log rest. eexists. split; [reflexivity|]. simpl.
  repeat split; try reflexivity.
  - intros i tab. rewrite list_lookup_imap.
    destruct (rest !! i); simpl; [|discriminate].
    intros [= <-]. reflexivity.
  - now rewrite length_imap.
Qed.

End Viewer.

(** ** RouteMap.js: what is read from a leg *)

Section Legs.
Import JS RouteMap Samples.
Local Open Scope Q_scope.

Lemma nearest_close (d : nat) (a : Q) :
  Qabs (inject_Z (nearest d a) - a * inject_Z (10 ^ Z.of_nat d)) <= 1 # 2.
Proof.
  unfold nearest. set (y := a * inject_Z (10 ^ Z.of_nat d)).
  pose proof (Qfloor_le (y + (1 # 2))) as Hlo.
  pose proof (Qlt_floor (y + (1 # 2))) as Hhi.
  rewrite inject_Z_plus in Hhi. change (inject_Z 1) with 1 in Hhi.
  apply Qabs_Qle_condition. lra.
Qed.

Lemma legView_agree (leg leg' : gmap string value) :
  leg' !! "from_location"%string = leg !! "from_location"%string ->
  leg' !! "to_location"%string = leg !! "to_location"%string ->
  leg' !! "distance_meters"%string = leg !! "distance_meters"%string ->
  leg' !! "duration_seconds"%string = leg !! "duration_seconds"%string ->
  legView leg' = legView leg.
Proof. intros H1 H2 H3 H4. unfold legView. now rewrite H1, H2, H3, H4. Qed.

Lemma legView_insert_other (leg : gmap string value) (key : string) (v : value) :
  key <> "from_location"%string -> key <> "to_location"%string ->
  key <> "distance_meters"%string -> key <> "duration_seconds"%string ->
  legView (<[key := v]> leg) = legView leg.
Proof.
  intros H1 H2 H3 H4.
  apply legView_agree; apply lookup_insert_ne; congruence.
Qed.

(** C8, as the code has it. Every leg of the route gets one element of
    the list, in order, and that element is computed from the properties
    [from_location], [to_location], [distance_meters] and
    [duration_seconds] of the leg: the end points are shown as they are,
    the distance is taken in metres and divided by 1609.34 to be shown as
    miles without decimals, the duration is taken in seconds and divided
    by 3600 to be shown as hours with one decimal.  Nothing else of the
    leg is read: two legs that agree on these four properties are shown
    alike, and setting any other property, [from_label], [to_label],
    [duration_hours] and [distance_miles] among them, changes nothing. *)
Theorem leg_view_reads_meters_and_seconds
    (routeData : RouteData) (route_legs : list (gmap string value)) :
  legs routeData = Some route_legs ->
  exists views,
    legsPanel (Some routeData) = Some views
    /\ length views = length route_legs
    /\ forall (i : nat) (leg : gmap string value),
         route_legs !! i = Some leg ->
         exists view,
           views !! i = Some view
           /\ leg_from view = leg !! "from_location"%string
           /\ leg_to view = leg !! "to_location"%string
           /\ leg_miles view
              = toFixed 0 (divide (toNumber (leg !! "distance_meters"%string))
                                  (literal 1609.34))
           /\ leg_hours view
              = toFixed 1 (divide (toNumber (leg !! "duration_seconds"%string))
                                  (literal 3600))
           /\ (forall leg' : gmap string value,
                 leg' !! "from_location"%string = leg !! "from_location"%string ->
                 leg' !! "to_location"%string = leg !! "to_location"%string ->
                 leg' !! "distance_meters"%string = leg !! "distance_meters"%string ->
                 leg' !! "duration_seconds"%string = leg !! "duration_seconds"%string ->
                 legView leg' = view)
           /\ (forall (key : string) (v : value),
                 key <> "from_location"%string -> key <> "to_location"%string ->
                 key <> "distance_meters"%string ->
                 key <> "duration_seconds"%string ->
                 legView (<[key := v]> leg) = view)
           /\ Forall (fun key => forall v, legView (<[key := v]> leg) = view)
                     ["from_label"; "to_label"; "duration_hours";
                      "distance_miles"]%string.
Proof.
  intros Hlegs. exists (map legView route_legs). split; [|split].
  - unfold legsPanel. now rewrite Hlegs.
  - apply length_map.
  - intros i leg Hi. exists (legView leg). split.
    { change (map legView route_legs) with (legView <$> route_legs).
      now rewrite list_lookup_fmap, Hi. }
    repeat split.
    + intros leg'. apply legView_agree.
    + intros key v. apply legView_insert_other.
    + repeat constructor; intros v; now apply legView_insert_other.
Qed.

Lemma leg_view_reads_meters_and_seconds_witness :
  exists views,
    legsPanel (Some {| legs := Some [codeLeg; shortLeg];
                       total_distance_miles := Some 99.5;
                       total_duration_hours := Some 1.65 |})
    = Some views
    /\ exists view,
         views !! 1%nat = Some view
         /\ leg_from view = Some (VStr "Depot")
         /\ leg_to view = Some (VStr "Yard")
         /\ leg_miles view = "7"%string
         /\ leg_hours view = "0.1"%string.
Proof.
  destruct (leg_view_reads_meters_and_seconds
              {| legs := Some [codeLeg; shortLeg];
                 total_distance_miles := Some 99.5;
                 total_duration_hours := Some 1.65 |}
              [codeLeg; shortLeg] eq_refl) as (views & Hviews & _ & Hall).
  destruct (Hall 1%nat shortLeg eq_refl)
    as (view & Hview & Hfrom & Hto & Hmiles & Hhours & _).
  exists views. split; [exact Hviews|].
  exists view. split; [exact Hview|].
  rewrite Hfrom, Hto, Hmiles, Hhours.
  repeat split; vm_compute; reflexivity.
Defined.

(** C8, as the claim words it, fails: of a leg that is the record
    [{from_label, to_label, duration_hours, distance_miles}], with its
    duration in hours and its distance in miles, the route view shows
    nothing, no end points and "NaN" for both figures, which is what it
    shows of a leg without any property. *)
Lemma leg_of_spec_record_not_displayed :
  dom specLeg
  = {["from_label"; "to_label"; "duration_hours"; "distance_miles"]}%string
  /\ legView specLeg
     = {| leg_from := None; leg_to := None;
          leg_miles := "NaN"%string; leg_hours := "NaN"%string |}
  /\ legView specLeg = legView ∅.
Proof.
  split; [|split; reflexivity].
  unfold specLeg. rewrite !dom_insert_L, dom_empty_L. set_solver.
Qed.

End Legs.

(** ** App.js: the outcome of a submission *)

Section AppState.
Import JS App.

Lemma errorMessage_truthy (err : Failure) :
  truthy_string (errorMessage err) = true.
Proof.
  unfold errorMessage, or_string.
  destruct (truthy_string (default ""%string (response_data_error err))) eqn:E1;
    [exact E1|].
  destruct (truthy_string (default ""%string (message err))) eqn:E2;
    [exact E2 | reflexivity].
Qed.

Lemma exec_handleSubmit (post : TripForm.TripData -> Settled AxiosResponse)
    (formData : TripForm.TripData) (st : State) :
  exec (handleSubmit post formData) st
  = match planTrip post formData with
    | Resolved d => {| loading := false; error := None; result := d |}
    | Rejected err =>
        {| loading := false; error := Some (errorMessage err); result := BNull |}
    end.
Proof.
  unfold handleSubmit, exec. destruct (planTrip post formData); reflexivity.
Qed.

(** C2, as the claim words it, fails: a request that is answered with
    the body [null] resolves, and [handleSubmit] then ends with [result]
    and [error] both null. *)
Lemma handleSubmit_null_body_sets_neither :
  let post := fun _ : TripForm.TripData => Resolved {| data := BNull |} in
  let tripData := TripForm.handleSubmit (Samples.sampleForm "36") in
  let st' := exec (handleSubmit post tripData) initialState in
  loading st' = false /\ error st' = None /\ result st' = BNull.
Proof. repeat split. Qed.

(** C2, as the code has it. Whatever the state before, once
    [handleSubmit] has run to its end [loading] is false again and
    [error] and [result] are never both set: if [planTrip] resolved,
    [result] is the body of the response as it was received and [error] is
    null; if it rejected, [error] is a non-empty message and [result] is
    null.  Exactly one of the two is set unless the request resolved with
    the body [null], in which case neither is. *)
Theorem handleSubmit_result_xor_error
    (post : TripForm.TripData -> Settled AxiosResponse)
    (formData : TripForm.TripData) (st : State) :
  let st' := exec (handleSubmit post formData) st in
  loading st' = false
  /\ match post formData with
     | Resolved response =>
         result st' = data response /\ error st' = None
     | Rejected err =>
         result st' = BNull
         /\ error st' = Some (errorMessage err)
         /\ errorMessage err <> ""%string
     end
  /\ ~ (is_Some (error st') /\ result st' <> BNull)
  /\ (is_Some (error st') <-> exists err, post formData = Rejected err)
  /\ (result st' <> BNull
      <-> exists response,
            post formData = Resolved response /\ data response <> BNull).
Proof.
  intros st'. subst st'. rewrite exec_handleSubmit. unfold planTrip.
  destruct (post formData) as [response|err]; simpl.
  - split; [reflexivity|]. split; [split; reflexivity|].
    split; [|split; split].
    + intros [[? [=]] _].
    + intros [? [=]].
    + intros [? [=]].
    + intros Hr. exists response. split; [reflexivity | exact Hr].
    + intros (? & [= <-] & Hr). exact Hr.
  - pose proof (errorMessage_truthy err) as Ht.
    split; [reflexivity|]. split; [|split; [|split; split]].
    + split; [reflexivity|]. split; [reflexivity|].
      intros E. rewrite E in Ht. discriminate.
    + intros [_ Hr]. now apply Hr.
    + intros _. now exists err.
    + eauto.
    + intros Hr. now destruct Hr.
    + intros (? & [=] & _).
Qed.

End AppState.

(** ** TripForm.js: the cycle value of a submitted form *)

Section CycleRange.
Import JS TripForm Samples.
Local Open Scope Q_scope.

Lemma or_zero_number_in_range (x : Q) :
  0 <= x <= 70 -> in_cycle_range (or_zero_number (Fin x)).
Proof.
  intros Hx. simpl. destruct (Qeq_bool x 0).
  - exists 0. split; [reflexivity | lra].
  - exists x. split; [reflexivity | exact Hx].
Qed.

(** What the validity of the whole form says about the cycle input. *)
Lemma checkValidity_cycle (formData : FormData) :
  checkValidity formData = true ->
  exists x, parseFloat (current_cycle_used formData) = Fin x /\ 0 <= x <= 70.
Proof.
  unfold checkValidity, inputs. simpl forallb.
  rewrite !andb_true_iff. intros (_ & _ & _ & H & _). revert H.
  change (valueOf formData "current_cycle_used") with (current_cycle_used formData).
  unfold satisfiesConstraints. simpl.
  destruct (validFloatingPointNumber (current_cycle_used formData));
    [|discriminate].
  destruct (current_cycle_used formData) as [|c v] eqn:Ev; [discriminate|].
  destruct (parseFloat (String c v)) as [| |x]; try discriminate.
  rewrite !andb_true_iff, !Qle_bool_iff. intros [[Hlo Hhi] _].
  exists x. split; [reflexivity | split; assumption].
Qed.

Lemma checkValidity_out_of_range (formData : FormData) :
  ~ in_cycle_range (parseFloat (current_cycle_used formData)) ->
  checkValidity formData = false.
Proof.
  intros Hout. destruct (checkValidity formData) eqn:E; [|reflexivity].
  destruct (checkValidity_cycle formData E) as (x & Hx & Hr).
  destruct Hout. exists x. split; assumption.
Qed.

(** [handleSubmit] on its own only coerces: the range is checked by the
    browser before it, not by it.  Called on a state of the form that
    would not have passed, it hands the number on as it is. *)
Remark handleSubmit_only_coerces :
  data_current_cycle_used (handleSubmit (sampleForm "100")) = Fin 100
  /\ data_current_cycle_used (handleSubmit (sampleForm "")) = Fin 0
  /\ submit (sampleForm "100") = None
  /\ submit (sampleForm "") = None.
Proof. repeat split. Qed.

(** C1. Whenever a submission of the form hands data to [onSubmit], the
    request that the application posts is that data, with the
    [current_cycle_used] that [handleSubmit] computes, a number in
    [0, 70]: what the submission leaves is settled by the answer of the
    back end to that one request, and nothing else is asked of the back
    end.  Whatever the form holds, the back end is consulted for requests
    with a [current_cycle_used] in [0, 70] only: two back ends that answer
    alike to those cannot be told apart by a submission.  A form whose
    cycle field reads as anything else than a number in [0, 70] is not
    submitted: nothing is posted and no state changes. *)
Theorem submitted_cycle_within_0_70 (formData : FormData) :
  (forall tripData,
      submit formData = Some tripData ->
      tripData = handleSubmit formData
      /\ in_cycle_range (data_current_cycle_used tripData)
      /\ (forall post st,
            App.submitTripForm post formData st
            = (Some tripData,
               match post tripData with
               | App.Resolved response =>
                   {| App.loading := false; App.error := None;
                      App.result := App.data response |}
               | App.Rejected err =>
                   {| App.loading := false;
                      App.error := Some (App.errorMessage err);
                      App.result := App.BNull |}
               end))
      /\ (forall post post' st,
            post tripData = post' tripData ->
            App.submitTripForm post formData st
            = App.submitTripForm post' formData st))
  /\ (forall post post' st,
        (forall tripData,
            in_cycle_range (data_current_cycle_used tripData) ->
            post tripData = post' tripData) ->
        App.submitTripForm post formData st
        = App.submitTripForm post' formData st)
  /\ (~ in_cycle_range (parseFloat (current_cycle_used formData)) ->
      submit formData = None
      /\ forall post st, App.submitTripForm post formData st = (None, st)).
Proof.
  assert (forall post st,
             checkValidity formData = true ->
             App.submitTripForm post formData st
             = (Some (handleSubmit formData),
                match post (handleSubmit formData) with
                | App.Resolved response =>
                    {| App.loading := false; App.error := None;
                       App.result := App.data response |}
                | App.Rejected err =>
                    {| App.loading := false;
                       App.error := Some (App.errorMessage err);
                       App.result := App.BNull |}
                end)) as Hrun.
  { intros post st E. unfold App.submitTripForm, submit. rewrite E.
    unfold mbind, App.M_bind, mret, App.M_ret.
    pose proof (exec_handleSubmit post (handleSubmit formData) st) as Hexec.
    unfold App.exec, App.planTrip in Hexec.
    destruct (App.handleSubmit post (handleSubmit formData) st) as [u st'].
    simpl in Hexec. rewrite Hexec.
    destruct (post (handleSubmit formData)); reflexivity. }
  assert (checkValidity formData = true ->
          in_cycle_range (data_current_cycle_used (handleSubmit formData)))
    as Hrange.
  { intros E. destruct (checkValidity_cycle formData E) as (x & Hx & Hr).
    simpl. rewrite Hx. now apply or_zero_number_in_range. }
  split; [|split].
  - intros tripData. unfold submit.
    destruct (checkValidity formData) eqn:E; [|discriminate].
    intros [= <-]. split; [reflexivity|]. split; [now apply Hrange|]. split.
    + intros post st. now apply Hrun.
    + intros post post' st Hpost. rewrite !Hrun by reflexivity.
      now rewrite Hpost.
  - intros post post' st Hpost.
    destruct (checkValidity formData) eqn:E.
    + rewrite !Hrun by reflexivity. now rewrite (Hpost _ (Hrange eq_refl)).
    + unfold App.submitTripForm, submit. now rewrite E.
  - intros Hout. unfold App.submitTripForm, submit.
    rewrite (checkValidity_out_of_range formData Hout). split; reflexivity.
Qed.

Lemma submitted_cycle_within_0_70_witness :
  in_cycle_range (Fin 36)
  /\ submit (sampleForm "100") = None
  /\ submit (sampleForm "70.00000000000000001")
     = Some {| data_current_location := "Chicago, IL";
               data_pickup_location := "Milwaukee, WI";
               data_dropoff_location := "Minneapolis, MN";
               data_current_cycle_used := Fin 70 |}.
Proof.
  split; [|split].
  - refine (proj1 (proj2 (proj1 (submitted_cycle_within_0_70 (sampleForm "36"))
                            (handleSubmit (sampleForm "36")) eq_refl))).
  - refine (proj1 (proj2 (proj2 (submitted_cycle_within_0_70 (sampleForm "100")))
                     _)).
    intros (q & [= <-] & _ & Hle). revert Hle. apply Qlt_not_le. reflexivity.
  - vm_compute. reflexivity.
Defined.

End CycleRange.

(** ** The renderer's time-to-X mapping *)

Section TimeToX.
Import LogRenderer.
Local Open Scope Q_scope.




End TimeToX.

(** ** The engine: the simulation always ends *)

Section Arithmetic.
Local Open Scope Q_scope.

Lemma Qle_bool_false (x y : Q) : Qle_bool x y = false <-> y < x.
Proof.
  rewrite <- not_true_iff_false, Qle_bool_iff. split.
  - apply Qnot_le_lt.
  - apply Qlt_not_le.
Qed.





End Arithmetic.




Section Termination.
Import Engine.
Local Open Scope Q_scope.

















End Termination.

(** ** The engine: what the timeline looks like *)

Section Timeline.
Import Engine.
Local Open Scope Q_scope.





Lemma pause_hours_positive (p : Pause) : BREAK_HOURS <= pause_hours p.
Proof. destruct p; discriminate. Qed.










End Timeline.

(** ** The day splitter: what the totals of a day add up to *)


Section Days.
Import Engine DaySplitter.
Local Open Scope Q_scope.













Lemma day_start_succ (d : nat) : day_start (S d) == day_start d + DAY_HOURS.
Proof.
  unfold day_start, DAY_HOURS. rewrite Nat2Z.inj_succ. unfold Z.succ.
  rewrite inject_Z_plus. change (inject_Z 1) with 1. lra.
Qed.














End Days.

(** * Further properties of the components *)

(** ** TripForm.js: editing and submitting *)

Section TripFormMore.
Import JS TripForm Samples.
Local Open Scope Q_scope.

Ltac case_names :=
  repeat match goal with
    | |- context [String.eqb ?a ?b] =>
        destruct (String.eqb_spec a b); subst; simpl; try congruence
    end.

(** X1. [handleChange] on the name of one of the four inputs stores the
    value under that name and leaves the other three fields as they were;
    a later change of the same field replaces the earlier one. *)
Theorem handleChange_sets_named_field_only
    (name other value : string) (prev : FormData) :
  In name (map input_name inputs) ->
  valueOf (handleChange name value prev) name = value
  /\ (other <> name ->
      valueOf (handleChange name value prev) other = valueOf prev other)
  /\ (forall later,
        handleChange name later (handleChange name value prev)
        = handleChange name later prev).
Proof.
  simpl. intros [<- | [<- | [<- | [<- | []]]]].
  all: split; [reflexivity|]; split; [|reflexivity].
  all: intros Hne; unfold valueOf, handleChange; simpl; case_names.
Qed.

Lemma handleChange_sets_named_field_only_witness :
  valueOf (handleChange "pickup_location" "Reno, Nevada" initialFormData)
          "pickup_location" = "Reno, Nevada"%string
  /\ valueOf (handleChange "pickup_location" "Reno, Nevada" initialFormData)
             "current_cycle_used" = ""%string.
Proof.
  destruct (handleChange_sets_named_field_only "pickup_location"
              "current_cycle_used" "Reno, Nevada" initialFormData)
    as (Hset & Hother & _).
  - simpl. right. left. reflexivity.
  - split; [exact Hset|]. apply Hother. discriminate.
Defined.

(** X2. Whatever the cycle field holds, the [current_cycle_used] that
    [handleSubmit] hands on is never [NaN]: a field that does not start
    with a number (an empty one, for instance) gives 0, a field that reads
    as a non-zero number gives that number; the three locations are handed
    on as they are. *)
Theorem handleSubmit_cycle_never_NaN (formData : FormData) :
  let data := handleSubmit formData in
  data_current_cycle_used data <> NaN
  /\ (parseFloat (current_cycle_used formData) = NaN ->
      data_current_cycle_used data = Fin 0)
  /\ (current_cycle_used formData = ""%string ->
      data_current_cycle_used data = Fin 0)
  /\ (forall q, parseFloat (current_cycle_used formData) = Fin q ->
                ~ q == 0 -> data_current_cycle_used data = Fin q)
  /\ data_current_location data = current_location formData
  /\ data_pickup_location data = pickup_location formData
  /\ data_dropoff_location data = dropoff_location formData.
Proof.
  simpl. repeat split.
  - destruct (parseFloat _) as [| |q]; simpl; try discriminate.
    destruct (Qeq_bool q 0); discriminate.
  - intros ->. reflexivity.
  - intros ->. reflexivity.
  - intros q -> Hq. simpl. destruct (Qeq_bool q 0) eqn:E; [|reflexivity].
    apply Qeq_bool_iff in E. contradiction.
Qed.

Lemma handleSubmit_cycle_never_NaN_witness :
  data_current_cycle_used (handleSubmit (sampleForm "abc")) = Fin 0
  /\ data_current_cycle_used (handleSubmit (sampleForm "20.5")) = Fin 20.5.
Proof.
  split.
  - exact (proj1 (proj2 (handleSubmit_cycle_never_NaN (sampleForm "abc"))) eq_refl).
  - refine (proj1 (proj2 (proj2 (proj2
              (handleSubmit_cycle_never_NaN (sampleForm "20.5")))))
              20.5 eq_refl _).
    discriminate.
Defined.

Lemma required_text_nonempty (i : Input) (value : string) :
  input_type i = TextInput -> input_required i = true ->
  satisfiesConstraints i value = true -> value <> ""%string.
Proof.
  unfold satisfiesConstraints. intros -> ->. simpl.
  destruct value; [discriminate | discriminate].
Qed.

(** X3. A form is submitted only when none of its three locations is
    empty (each input is [required]); the submitted data carry them as
    they were typed. *)
Theorem submit_requires_locations (formData : FormData) (tripData : TripData) :
  submit formData = Some tripData ->
  current_location formData <> ""%string
  /\ pickup_location formData <> ""%string
  /\ dropoff_location formData <> ""%string
  /\ data_current_location tripData = current_location formData
  /\ data_pickup_location tripData = pickup_location formData
  /\ data_dropoff_location tripData = dropoff_location formData.
Proof.
  unfold submit. destruct (checkValidity formData) eqn:E; [|discriminate].
  intros [= <-]. revert E. unfold checkValidity, inputs. simpl forallb.
  rewrite !andb_true_iff. intros (H1 & H2 & H3 & _).
  repeat split.
  - apply required_text_nonempty in H1; [exact H1 | reflexivity ..].
  - apply required_text_nonempty in H2; [exact H2 | reflexivity ..].
  - apply required_text_nonempty in H3; [exact H3 | reflexivity ..].
Qed.

Lemma submit_requires_locations_witness :
  pickup_location (sampleForm "36") <> ""%string.
Proof.
  exact (proj1 (proj2 (submit_requires_locations (sampleForm "36")
                         (handleSubmit (sampleForm "36")) eq_refl))).
Defined.

(** What the validity of the whole form says about the step of the cycle
    input. *)
Lemma checkValidity_cycle_step (formData : FormData) :
  checkValidity formData = true ->
  exists x, parseFloat (current_cycle_used formData) = Fin x
            /\ 0 <= x <= 70
            /\ x == inject_Z (Qfloor (x * 2)) * (1 # 2).
Proof.
  unfold checkValidity, inputs. simpl forallb.
  rewrite !andb_true_iff. intros (_ & _ & _ & H & _). revert H.
  change (valueOf formData "current_cycle_used") with (current_cycle_used formData).
  unfold satisfiesConstraints.
  cbn [input_type input_required input_min input_max input_step sanitize negb].
  destruct (validFloatingPointNumber (current_cycle_used formData));
    [|discriminate].
  destruct (current_cycle_used formData) as [|c v] eqn:Ev; [discriminate|].
  destruct (parseFloat (String c v)) as [| |x]; try discriminate.
  unfold le_opt, ge_opt, on_step. change (default 0 (Some 0)) with 0.
  rewrite !andb_true_iff, !Qle_bool_iff. intros [[Hlo Hhi] Hstep].
  exists x. split; [reflexivity|]. split; [split; assumption|].
  apply Qeq_bool_iff in Hstep.
  assert ((x - 0) / 0.5 == x * 2) as E by field.
  rewrite (Qfloor_comp _ _ E), E in Hstep. rewrite Hstep. field.
Qed.

(** X4. The cycle value of a submitted form is a whole number of half
    hours: [k / 2] for an integer [k] from 0 to 140 (the input declares
    [step="0.5"] from its minimum 0). *)
Theorem submitted_cycle_on_half_hour_step
    (formData : FormData) (tripData : TripData) :
  submit formData = Some tripData ->
  exists (k : Z) (q : Q),
    data_current_cycle_used tripData = Fin q
    /\ (0 <= k <= 140)%Z
    /\ q == inject_Z k * (1 # 2).
Proof.
  unfold submit. destruct (checkValidity formData) eqn:E; [|discriminate].
  intros [= <-]. destruct (checkValidity_cycle_step formData E)
    as (x & Hx & [Hlo Hhi] & Hstep).
  assert (0 <= Qfloor (x * 2) <= 140)%Z as Hk.
  { apply floor_bounds; unfold inject_Z; lra. }
  simpl. rewrite Hx. simpl. destruct (Qeq_bool x 0) eqn:E0.
  - exists 0%Z, 0. split; [reflexivity|]. split; [lia | reflexivity].
  - exists (Qfloor (x * 2)), x. split; [reflexivity|]. split; assumption.
Qed.

Lemma submitted_cycle_on_half_hour_step_witness :
  exists (k : Z) (q : Q),
    data_current_cycle_used (handleSubmit (sampleForm "20.5")) = Fin q
    /\ (0 <= k <= 140)%Z /\ q == inject_Z k * (1 # 2).
Proof.
  exact (submitted_cycle_on_half_hour_step (sampleForm "20.5")
           (handleSubmit (sampleForm "20.5")) eq_refl).
Defined.

(** X21. The number that a submitted form sends is the number that its
    cycle field reads as: the fallback to 0 in [handleSubmit] is never what
    decides the value of a form that the browser has let through. *)
Theorem submitted_cycle_is_the_typed_number
    (formData : FormData) (tripData : TripData) :
  submit formData = Some tripData ->
  exists typed sent,
    parseFloat (current_cycle_used formData) = Fin typed
    /\ data_current_cycle_used tripData = Fin sent
    /\ sent == typed.
Proof.
  unfold submit. destruct (checkValidity formData) eqn:E; [|discriminate].
  intros [= <-]. destruct (checkValidity_cycle formData E) as (x & Hx & _).
  exists x. simpl. rewrite Hx. simpl. destruct (Qeq_bool x 0) eqn:E0.
  - exists 0. split; [reflexivity|]. split; [reflexivity|].
    apply Qeq_bool_iff in E0. now rewrite E0.
  - exists x. split; [reflexivity|]. split; reflexivity.
Qed.

Lemma submitted_cycle_is_the_typed_number_witness :
  exists typed sent,
    parseFloat "36" = Fin typed
    /\ data_current_cycle_used (handleSubmit (sampleForm "36")) = Fin sent
    /\ sent == typed.
Proof.
  exact (submitted_cycle_is_the_typed_number (sampleForm "36")
           (handleSubmit (sampleForm "36")) eq_refl).
Defined.

End TripFormMore.

(** ** App.js: submissions in a row and what the page shows *)

Section AppMore.
Import JS App AppView.

(** X5. Nothing of an earlier submission survives a later one: the state
    after [handleSubmit] depends on how its own request settled and on
    nothing that was there before, so that two submissions in a row leave
    what the second alone leaves. *)
Theorem handleSubmit_forgets_earlier_state
    (post post' : TripForm.TripData -> Settled AxiosResponse)
    (formData formData' : TripForm.TripData) (st st' : State) :
  exec (handleSubmit post formData) st = exec (handleSubmit post formData) st'
  /\ exec (handleSubmit post formData) (exec (handleSubmit post' formData') st)
     = exec (handleSubmit post formData) initialState.
Proof. rewrite !exec_handleSubmit. split; reflexivity. Qed.

Lemma handleSubmit_split
    (post : TripForm.TripData -> Settled AxiosResponse)
    (formData : TripForm.TripData) (st : State) :
  exec (handleSubmit post formData) st
  = exec (afterAwait (planTrip post formData)) (exec beforeAwait st).
Proof.
  unfold handleSubmit, afterAwait, beforeAwait, exec.
  destruct (planTrip post formData); reflexivity.
Qed.

(** X6. While the request is in flight, whatever was on the page before,
    the submit button is disabled and reads "Planning Route…", the loading
    block is shown, and neither an error banner nor a results section is;
    [handleSubmit] is these three updates followed by the updates made
    once the request has settled. *)
Theorem page_while_request_in_flight
    (post : TripForm.TripData -> Settled AxiosResponse)
    (formData : TripForm.TripData) (st : State) :
  render (exec beforeAwait st)
  = {| submit_disabled := true;
       submit_label := "Planning Route…";
       error_banner := None;
       loading_block := true;
       results_section := None |}
  /\ exec (handleSubmit post formData) st
     = exec (afterAwait (planTrip post formData)) (exec beforeAwait st).
Proof. split; [reflexivity | apply handleSubmit_split]. Qed.

(** X7. Once [handleSubmit] is over the submit button is enabled again
    and the loading block is gone; after a rejected request the page shows
    the error banner with the message and no results section; after a
    resolved one it shows no error banner, and a results section, holding
    the body of the response, exactly when that body is truthy: a body
    that is [null], [false], [0] or the empty string leaves the page
    without a results section. *)
Theorem page_after_submission
    (post : TripForm.TripData -> Settled AxiosResponse)
    (formData : TripForm.TripData) (st : State) :
  render (exec (handleSubmit post formData) st)
  = match post formData with
    | Resolved response =>
        {| submit_disabled := false; submit_label := "Plan Trip";
           error_banner := None; loading_block := false;
           results_section :=
             if truthy (data response) then Some (data response) else None |}
    | Rejected err =>
        {| submit_disabled := false; submit_label := "Plan Trip";
           error_banner := Some (errorMessage err); loading_block := false;
           results_section := None |}
    end.
Proof.
  rewrite exec_handleSubmit. unfold planTrip.
  destruct (post formData) as [response|err]; [reflexivity|].
  unfold render. simpl. now rewrite errorMessage_truthy.
Qed.

(** X8. The message of a failed request is the server's [error] text
    when the response carries a non-empty one, else the [message] of the
    thrown error when that is non-empty, else the fixed text; an empty
    [error] text from the server does not hide the error's own message. *)
Theorem errorMessage_first_non_empty (err : Failure) (text : string) :
  text <> ""%string ->
  (response_data_error err = Some text -> errorMessage err = text)
  /\ (response_data_error err = None \/ response_data_error err = Some ""%string ->
      message err = Some text -> errorMessage err = text)
  /\ (response_data_error err = None \/ response_data_error err = Some ""%string ->
      message err = None \/ message err = Some ""%string ->
      errorMessage err
      = "An unexpected error occurred. Please try again."%string).
Proof.
  intros Ht. assert (truthy_string text = true) as Htruthy.
  { destruct text; [contradiction | reflexivity]. }
  unfold errorMessage, or_string. split; [|split].
  - intros ->. simpl. now rewrite Htruthy.
  - intros [-> | ->] ->; simpl; now rewrite Htruthy.
  - intros [-> | ->] [-> | ->]; reflexivity.
Qed.

Lemma errorMessage_first_non_empty_witness :
  errorMessage {| response_data_error := Some ""%string;
                  message := Some "Network Error"%string |}
  = "Network Error"%string.
Proof.
  refine (proj1 (proj2 (errorMessage_first_non_empty
            {| response_data_error := Some ""%string;
               message := Some "Network Error"%string |}
            "Network Error" _)) _ eq_refl).
  - discriminate.
  - right. reflexivity.
Defined.

End AppMore.

(** ** ELDLogViewer.js: tabs, missing schedules and the table *)

Section ViewerMore.
Import JS ELDLogViewer Samples.
Local Open Scope Q_scope.

(** X9. With the state [activeDay] at the index of some log, as every
    click on a tab leaves it, the component shows the image of that log,
    one tab per log, labelled with the day of its log, and marks the tab at
    that index and no other as active; the subtitle counts the sheets, in
    the singular for one; with the state beyond the last log the render
    fails on reading a field of [undefined]. *)
Theorem viewer_shows_active_day
    (logs : list Log) (schedule : array_prop DaySchedule)
    (activeDay : nat) (expanded : bool) :
  logs <> [] ->
  (forall log, logs !! activeDay = Some log ->
     exists v,
       render (Arr logs) schedule activeDay expanded = RenderView v
       /\ view_image_src v
          = ("data:image/png;base64," +:+ image_base64 log)%string
       /\ view_image_alt v = ("ELD Log Day " +:+ toString (log_day log))%string
       /\ length (view_tabs v) = length logs
       /\ view_subtitle v
          = (pretty (length logs) +:+ " log sheet"
               +:+ (if decide (length logs = 1%nat) then "" else "s")
               +:+ " generated")%string
       /\ forall i tab, view_tabs v !! i = Some tab ->
            (snd tab = true <-> i = activeDay)
            /\ exists logi, logs !! i = Some logi
                 /\ fst tab = ("Day " +:+ toString (log_day logi))%string)
  /\ ((length logs <= activeDay)%nat ->
      render (Arr logs) schedule activeDay expanded = RenderThrows).
Proof.
  intros Hne. destruct logs as [|l0 rest]; [contradiction|].
  unfold render, renderLogs. split.
  - intros log ->. eexists. split; [reflexivity|]. cbn [view_image_src
      view_image_alt view_tabs]. split; [reflexivity|]. split; [reflexivity|].
    split; [apply length_imap|].
    split.
    { cbn [view_subtitle length]. do 2 f_equal.
      destruct rest; reflexivity. }
    intros i tab. rewrite list_lookup_imap.
    destruct ((l0 :: rest) !! i) as [logi|] eqn:Hi; [|discriminate].
    simpl. intros [= <-]. simpl. split.
    + rewrite Nat.eqb_eq. split; congruence.
    + exists logi. split; reflexivity.
  - intros Hge. rewrite (proj2 (lookup_ge_None _ _) Hge). reflexivity.
Qed.

Lemma viewer_shows_active_day_witness :
  exists v,
    render (Arr (sampleLogs ++ sampleLogs)) Null 1 false = RenderView v
    /\ length (view_tabs v) = 2%nat.
Proof.
  destruct (proj1 (viewer_shows_active_day (sampleLogs ++ sampleLogs) Null 1 false
                     ltac:(discriminate)) _ eq_refl)
    as (v & Hv & _ & _ & Hlen & _ & _).
  exists v. split; [exact Hv | exact Hlen].
Defined.

(** X10. The schedule may be missing or shorter than the logs: when
    there is no schedule for the active day the component still renders,
    without the totals and without the event table; when there is one, the
    table's header and rows are those of that day (the rows only once
    expanded), and the totals panel is there exactly when the day has
    totals. *)
Theorem viewer_without_schedule
    (logs : array_prop Log) (schedule : array_prop DaySchedule)
    (activeDay : nat) (expanded : bool) (v : View) :
  render logs schedule activeDay expanded = RenderView v ->
  (scheduleAt schedule activeDay = None ->
   view_totals v = None /\ view_schedule v = None)
  /\ (forall s, scheduleAt schedule activeDay = Some s ->
        view_schedule v
        = Some (day s, if expanded then Some (scheduleRows s) else None)
        /\ view_totals v = totalsPanel <$> totals s)
  /\ (schedule = Null \/ schedule = Undefined ->
      scheduleAt schedule activeDay = None)
  /\ (forall days, schedule = Arr days -> (length days <= activeDay)%nat ->
        scheduleAt schedule activeDay = None).
Proof.
  intros Hr. destruct logs as [| |[|log rest]]; simpl in Hr; try discriminate.
  unfold renderLogs in Hr.
  destruct ((log :: rest) !! activeDay); [|discriminate].
  injection Hr as <-. cbn [view_totals view_schedule].
  split; [|split; [|split]].
  - intros ->. split; reflexivity.
  - intros s ->. split; reflexivity.
  - intros [-> | ->]; reflexivity.
  - intros days -> Hlen. simpl. now apply lookup_ge_None.
Qed.

Lemma viewer_without_schedule_witness :
  exists v,
    render (Arr sampleLogs) Null 0 false = RenderView v
    /\ view_totals v = None /\ view_schedule v = None.
Proof.
  eexists. split; [reflexivity|].
  exact (proj1 (viewer_without_schedule (Arr sampleLogs) Null 0 false _ eq_refl)
           eq_refl).
Defined.





(** X12. When the events of a day are in time order and none is later
    than 24, no row shows a negative duration, and none shows more than
    what is left of the day at its start. *)
Theorem table_durations_not_negative
    (d : DaySchedule) (i : nat) (ev : DutyEvent) :
  (forall j a b, events d !! j = Some a -> events d !! S j = Some b ->
                 time a <= time b) ->
  (forall j a, events d !! j = Some a -> time a <= 24) ->
  events d !! i = Some ev ->
  0 <= duration (events d) i ev <= 24 - time ev.
Proof.
  intros Hord Hday Hev. unfold duration, endTime.
  replace (i + 1)%nat with (S i) by lia.
  destruct (events d !! S i) as [next|] eqn:Hnext.
  - pose proof (Hord i ev next Hev Hnext). pose proof (Hday (S i) next Hnext).
    lra.
  - pose proof (Hday i ev Hev). lra.
Qed.

Lemma table_durations_not_negative_witness :
  0 <= duration (events sampleDay) 1
         {| time := 6; status := "on_duty"; location := "Chicago, IL";
            remark := "Pre-trip inspection" |} <= 24 - 6.
Proof.
  apply (table_durations_not_negative sampleDay 1
           {| time := 6; status := "on_duty"; location := "Chicago, IL";
              remark := "Pre-trip inspection" |}).
  - intros [|[|[|j]]] a b; simpl; intros [= <-] Hb; try discriminate;
      injection Hb as <-; discriminate.
  - intros [|[|[|j]]] a; simpl; intros Ha; try discriminate;
      injection Ha as <-; discriminate.
  - reflexivity.
Defined.

Lemma string_length_app (a b : string) :
  String.length (a +:+ b) = (String.length a + String.length b)%nat.
Proof. induction a as [|c a IH]; simpl; [reflexivity | congruence]. Qed.

Lemma pad2_upto_99 :
  forallb (fun n => Nat.eqb (String.length (padStart 2 "0" (toString (Z.of_nat n)))) 2)
          (seq 0 100) = true.
Proof. vm_compute. reflexivity. Qed.

(** Padded to two places, a number from 0 to 99 takes two characters. *)
Lemma pad2_length (z : Z) :
  (0 <= z <= 99)%Z -> String.length (padStart 2 "0" (toString z)) = 2%nat.
Proof.
  intros Hz. pose proof pad2_upto_99 as H.
  rewrite List.forallb_forall in H.
  specialize (H (Z.to_nat z)). rewrite Z2Nat.id in H by lia.
  apply Nat.eqb_eq, H, List.in_seq. lia.
Qed.

(** X14. For an event at a time of day from 0 up to, but not including,
    24 the "Time" cell has five characters: the hours from 00 to 23, a
    colon in the middle, and the minutes from 00 to 60, each on two places. *)
Theorem event_time_cell_is_five_characters
    (evs : list DutyEvent) (i : nat) (ev : DutyEvent) :
  0 <= time ev -> time ev < 24 ->
  let hrs := floor (time ev) in
  let mins := round ((time ev - inject_Z hrs) * 60) in
  row_time (eventRow evs i ev)
  = (padStart 2 "0" (toString hrs) +:+ ":" +:+ padStart 2 "0" (toString mins))%string
  /\ (0 <= hrs <= 23)%Z
  /\ (0 <= mins <= 60)%Z
  /\ String.length (row_time (eventRow evs i ev)) = 5%nat
  /\ String.get 2 (row_time (eventRow evs i ev)) = Some ":"%char.
Proof.
  intros H0 H24 hrs mins.
  assert (0 <= hrs <= 23)%Z as Hh.
  { apply floor_bounds; unfold inject_Z; lra. }
  pose proof (minutes_range (time ev)) as Hm. fold hrs in Hm. fold mins in Hm.
  assert (String.length (padStart 2 "0" (toString hrs)) = 2%nat) as Lh
    by (apply pad2_length; lia).
  assert (String.length (padStart 2 "0" (toString mins)) = 2%nat) as Lm
    by (apply pad2_length; lia).
  split; [reflexivity|]. split; [exact Hh|]. split; [exact Hm|].
  cbn [row_time eventRow]. fold hrs. fold mins. split.
  - rewrite !string_length_app, Lh, Lm. reflexivity.
  - pose proof (String.append_correct2 (padStart 2 "0" (toString hrs))
                  (":" +:+ padStart 2 "0" (toString mins)) 0) as Hget.
    rewrite Lh in Hget. simpl plus in Hget. rewrite <- Hget. reflexivity.
Qed.

Lemma event_time_cell_is_five_characters_witness :
  row_time (eventRow [] 0 {| time := 7.999; status := "driving";
                             location := ""; remark := "" |})
  = "07:60"%string.
Proof.
  exact (proj1 (event_time_cell_is_five_characters [] 0
                  {| time := 7.999; status := "driving"; location := "";
                     remark := "" |}
                  ltac:(discriminate) ltac:(reflexivity))).
Defined.

End ViewerMore.

(** ** RouteMap.js: the drive time and the layers of the map *)

Section RouteMapMore.
Import JS RouteMapView.
Local Open Scope Q_scope.

Lemma rem1_nonneg (h : Q) : 0 <= h -> rem1 h == h - inject_Z (floor h).
Proof.
  intros H. unfold rem1, trunc. apply Qle_bool_iff in H. now rewrite H.
Qed.

(** X16. For a route of a non-negative number of hours the "Drive Time"
    shows the same hours and the same minutes as [formatHours] would, the
    minutes without padding: the whole hours, and the rest rounded to a
    minute, from 0 to 60. *)
Theorem driveTime_hours_and_minutes (h : Q) :
  0 <= h ->
  let hrs := floor h in
  let mins := round ((h - inject_Z hrs) * 60) in
  driveTime (Some h) = (toString hrs +:+ "h " +:+ toString mins +:+ "m")%string
  /\ ELDLogViewer.formatHours h
     = (toString hrs +:+ "h " +:+ padStart 2 "0" (toString mins) +:+ "m")%string
  /\ (0 <= hrs)%Z
  /\ (0 <= mins <= 60)%Z.
Proof.
  intros Hh hrs mins. split; [|split; [reflexivity|split]].
  - unfold driveTime. do 3 f_equal. unfold round. f_equal.
    apply Qfloor_comp. rewrite (rem1_nonneg h Hh). reflexivity.
  - apply (floor_bounds h 0 (floor h)); [exact Hh | apply floor_lt].
  - apply (minutes_range h).
Qed.

Lemma driveTime_hours_and_minutes_witness :
  driveTime (Some 6.8) = "6h 48m"%string.
Proof.
  exact (proj1 (driveTime_hours_and_minutes 6.8 ltac:(discriminate))).
Defined.

(** X17. Drawing a route replaces what the layer group held: the layers
    after the effect do not depend on the layers before it, so that
    drawing the same route again changes nothing; and without a route, or
    before the map exists, the effect leaves the map as it is. *)
Theorem drawRoute_replaces_layers (r : Route) (m m' : MapState) :
  layers (drawRoute true (Some r) m) = layers (drawRoute true (Some r) m')
  /\ drawRoute true (Some r) (drawRoute true (Some r) m) = drawRoute true (Some r) m
  /\ drawRoute true None m = m
  /\ (forall routeData, drawRoute false routeData m = m).
Proof.
  repeat split.
  unfold drawRoute. simpl. f_equal.
  destruct (map _ (default [] (waypoints r))); reflexivity.
Qed.

(** X18. After a route is drawn the layer group holds the line of the
    route, if the geometry has coordinates, with as many points as there
    are coordinates, each with latitude and longitude swapped into Leaflet's
    order, followed by one marker per waypoint at the waypoint's position;
    the map is fitted to the positions of all waypoints, or left where it
    was when there is none (a missing list of waypoints counts as empty). *)
Theorem drawRoute_line_and_markers (r : Route) (m : MapState) :
  let wps := default [] (waypoints r) in
  let drawn := drawRoute true (Some r) m in
  (forall cs, geometry r = Some {| coordinates := Some cs |} ->
     layers drawn = Polyline (latlngs cs) :: map marker wps
     /\ length (latlngs cs) = length cs
     /\ (forall i lng lt, cs !! i = Some (lng, lt) ->
                          latlngs cs !! i = Some (lt, lng)))
  /\ (geometry r = None \/ geometry r = Some {| coordinates := None |} ->
      layers drawn = map marker wps)
  /\ (wps <> [] -> fitted drawn = Some (map (fun wp => (lat wp, lon wp)) wps))
  /\ (wps = [] -> fitted drawn = fitted m)
  /\ (forall i wp, wps !! i = Some wp ->
        exists color letter,
          map marker wps !! i
          = Some (Marker (lat wp) (lon wp) color letter (label wp, display_name wp))).
Proof.
  intros wps drawn. subst drawn. unfold drawRoute. fold wps.
  split; [|split; [|split; [|split]]].
  - intros cs ->. simpl. split; [reflexivity|]. split.
    + unfold latlngs. apply length_map.
    + intros i lng lt Hi. unfold latlngs.
      change (map ?f cs) with (f <$> cs).
      rewrite list_lookup_fmap, Hi. reflexivity.
  - intros [-> | ->]; reflexivity.
  - intros Hne. simpl. destruct wps; [contradiction | reflexivity].
  - intros ->. reflexivity.
  - intros i wp Hi. eexists. eexists.
    change (map marker wps) with (marker <$> wps).
    rewrite list_lookup_fmap, Hi. reflexivity.
Qed.

Lemma drawRoute_line_and_markers_witness :
  fitted (drawRoute true
            (Some {| waypoints := None; geometry := None |})
            {| layers := [Polyline []]; fitted := Some [(1, 2)] |})
  = Some [(1, 2)].
Proof.
  exact (proj1 (proj2 (proj2 (proj2
           (drawRoute_line_and_markers
              {| waypoints := None; geometry := None |}
              {| layers := [Polyline []]; fitted := Some [(1, 2)] |}))))
           eq_refl).
Defined.

(** X19. The icon of a waypoint labelled "Current Location", "Pickup"
    or "Dropoff" is blue with an S, green with a P, red with a D; any other
    label that is not the name of a member every object inherits gets the
    grey icon with a question mark. *)
Theorem marker_icon_by_label (wp : Waypoint) :
  (label wp = "Current Location"%string ->
   marker wp = Marker (lat wp) (lon wp) (Text "#2b6cb0") (Text "S")
                 (label wp, display_name wp))
  /\ (label wp = "Pickup"%string ->
      marker wp = Marker (lat wp) (lon wp) (Text "#276749") (Text "P")
                    (label wp, display_name wp))
  /\ (label wp = "Dropoff"%string ->
      marker wp = Marker (lat wp) (lon wp) (Text "#c53030") (Text "D")
                    (label wp, display_name wp))
  /\ (~ In (label wp) (map fst WAYPOINT_COLORS) ->
      ~ In (label wp) inheritedNames ->
      marker wp = Marker (lat wp) (lon wp) (Text "#4a5568") (Text "?")
                    (label wp, display_name wp)).
Proof.
  unfold marker.
  split; [intros ->; reflexivity|]. split; [intros ->; reflexivity|].
  split; [intros ->; reflexivity|].
  intros Hown Hinh. unfold lookupOr.
  assert (forall obj, map fst obj = map fst WAYPOINT_COLORS ->
                      ELDLogViewer.get obj (label wp) = None) as Hget.
  { intros obj Hkeys. assert (~ In (label wp) (map fst obj)) as Hno
      by now rewrite Hkeys.
    clear Hkeys. induction obj as [|[k v] obj IH]; [reflexivity|]. simpl.
    destruct (String.eqb_spec k (label wp)) as [->|_].
    - destruct Hno. left. reflexivity.
    - apply IH. intros Hin. apply Hno. right. exact Hin. }
  rewrite (Hget WAYPOINT_COLORS eq_refl), (Hget WAYPOINT_LABELS eq_refl).
  assert (existsb (String.eqb (label wp)) inheritedNames = false) as ->;
    [|reflexivity].
  apply not_true_iff_false. rewrite List.existsb_exists.
  intros (name & Hin & Heq). apply String.eqb_eq in Heq. subst name.
  contradiction.
Qed.

Lemma marker_icon_by_label_witness :
  marker {| label := "Fuel stop"; lat := 41; lon := -88; display_name := "" |}
  = Marker 41 (-88) (Text "#4a5568") (Text "?") ("Fuel stop"%string, ""%string).
Proof.
  apply (proj2 (proj2 (proj2 (marker_icon_by_label
           {| label := "Fuel stop"; lat := 41; lon := -88; display_name := "" |})))).
  - simpl. intros [H | [H | [H | []]]]; discriminate.
  - simpl. intuition discriminate.
Defined.

End RouteMapMore.

(** ** RouteMap.js: the figures of a leg as they are printed *)

Section LegFigures.
Import JS RouteMap.
Local Open Scope Q_scope.

Lemma string_app_cons (x : ascii) (a b : string) :
  String x a +:+ b = String x (a +:+ b).
Proof. reflexivity. Qed.

Lemma string_app_assoc (a b c : string) : (a +:+ b) +:+ c = a +:+ (b +:+ c).
Proof.
  induction a as [|x a IH]; [reflexivity|].
  rewrite !string_app_cons. f_equal. exact IH.
Qed.

Lemma string_app_empty_l (a : string) : "" +:+ a = a.
Proof. reflexivity. Qed.

Lemma string_app_empty_r (a : string) : a +:+ "" = a.
Proof.
  induction a as [|x a IH]; [reflexivity|].
  rewrite string_app_cons. f_equal. exact IH.
Qed.

Lemma substring_whole (a : string) : String.substring 0 (String.length a) a = a.
Proof. induction a as [|x a IH]; simpl; [reflexivity | congruence]. Qed.

Lemma substring_app_l (a b : string) :
  String.substring 0 (String.length a) (a +:+ b) = a.
Proof.
  induction a as [|x a IH]; [now destruct b|].
  rewrite string_app_cons. simpl. f_equal. exact IH.
Qed.

Lemma substring_app_r (a b : string) (n : nat) :
  String.substring (String.length a) n (a +:+ b) = String.substring 0 n b.
Proof.
  induction a as [|x a IH]; [reflexivity|].
  rewrite string_app_cons. simpl. exact IH.
Qed.

Lemma padStart_long (n : nat) (c : ascii) (s : string) :
  (n <= String.length s)%nat -> padStart n c s = s.
Proof.
  intros Hn. unfold padStart. replace (n - String.length s)%nat with 0%nat by lia.
  reflexivity.
Qed.

(** The digits of [x] come before whatever was accumulated. *)
Lemma pretty_N_go_app (x : N) (s : string) :
  pretty_N_go x s = pretty_N_go x "" +:+ s.
Proof.
  revert s. induction (N.lt_wf_0 x) as [x _ IH]. intros s.
  destruct (decide (0 < x)%N) as [Hx|Hx].
  - rewrite !(pretty_N_go_step x) by exact Hx.
    assert (x `div` 10 < x)%N as Hlt by (apply N.div_lt; lia).
    rewrite (IH _ Hlt (String _ s)), (IH _ Hlt (String _ "")).
    rewrite string_app_assoc. reflexivity.
  - assert (x = 0%N) as -> by lia. rewrite !pretty_N_go_0. reflexivity.
Qed.

Lemma pretty_N_digit (x : N) :
  (x < 10)%N -> pretty x = String (pretty_N_char x) "".
Proof.
  intros Hx. unfold pretty, pretty_N. destruct (decide (x = 0%N)) as [->|Hne].
  - reflexivity.
  - rewrite pretty_N_go_step by lia.
    rewrite N.div_small by exact Hx. rewrite N.mod_small by exact Hx.
    apply pretty_N_go_0.
Qed.

Lemma pretty_N_last (x : N) :
  (10 <= x)%N ->
  pretty x = pretty (x `div` 10)%N +:+ String (pretty_N_char (x `mod` 10)) "".
Proof.
  intros Hx. unfold pretty, pretty_N.
  destruct (decide (x = 0%N)) as [->|_]; [lia|].
  destruct (decide (x `div` 10 = 0)%N) as [E|_].
  - apply N.div_small_iff in E; lia.
  - rewrite pretty_N_go_step by lia. apply pretty_N_go_app.
Qed.

Lemma pretty_N_nonempty (x : N) : (1 <= String.length (pretty x))%nat.
Proof.
  destruct (decide (x < 10)%N) as [Hx|Hx].
  - rewrite pretty_N_digit by exact Hx. simpl. lia.
  - rewrite pretty_N_last by lia. rewrite string_length_app. simpl. lia.
Qed.

Lemma toString_N (z : Z) : (0 <= z)%Z -> toString z = pretty (Z.to_N z).
Proof. intros Hz. destruct z; [reflexivity | reflexivity | lia]. Qed.

Lemma nearest_nonneg (d : nat) (x : Q) : 0 <= x -> (0 <= nearest d x)%Z.
Proof.
  intros Hx. unfold nearest. rewrite <- (Qfloor_Z 0). apply Qfloor_resp_le.
  assert (0 <= inject_Z (10 ^ Z.of_nat d)) as Hp.
  { change 0 with (inject_Z 0). rewrite <- Zle_Qle. apply Z.pow_nonneg. lia. }
  pose proof (Qmult_le_0_compat _ _ Hx Hp). change (inject_Z 0) with 0. lra.
Qed.

(** [x.toFixed(0)] for a non-negative [x]: the digits of the nearest
    integer. *)
Lemma toFixed0_nonneg (x : Q) :
  0 <= x < inject_Z (10 ^ 21) -> toFixedFinite 0 x = toString (nearest 0 x).
Proof.
  intros [Hx Hbig]. unfold toFixedFinite. rewrite (proj2 (Qle_bool_iff 0 x) Hx).
  cbn [negb]. rewrite (proj2 (Qle_bool_false (inject_Z (tenTo 21)) x) Hbig).
  rewrite string_app_empty_l. pose proof (nearest_nonneg 0 x Hx) as Hn.
  fold (toString (nearest 0 x)). rewrite (toString_N _ Hn).
  pose proof (pretty_N_nonempty (Z.to_N (nearest 0 x))) as Hlen.
  set (p := pretty (Z.to_N (nearest 0 x))) in *.
  rewrite padStart_long by (simpl; lia).
  rewrite Nat.sub_0_r, substring_whole, string_app_empty_r. reflexivity.
Qed.

(** [x.toFixed(1)] for a non-negative [x]: the nearest number of tenths,
    printed as its whole part, a point and its last digit. *)
Lemma toFixed1_nonneg (x : Q) :
  0 <= x < inject_Z (10 ^ 21) ->
  toFixedFinite 1 x
  = (toString (nearest 1 x / 10) +:+ "." +:+ toString (nearest 1 x mod 10))%string.
Proof.
  intros [Hx Hbig]. unfold toFixedFinite. rewrite (proj2 (Qle_bool_iff 0 x) Hx).
  cbn [negb]. rewrite (proj2 (Qle_bool_false (inject_Z (tenTo 21)) x) Hbig).
  rewrite string_app_empty_l. pose proof (nearest_nonneg 1 x Hx) as Hn.
  set (n := nearest 1 x) in *.
  fold (toString n). rewrite (toString_N n Hn).
  rewrite (toString_N (n / 10)) by (apply Z.div_pos; lia).
  rewrite (toString_N (n mod 10)) by (apply Z.mod_pos_bound; lia).
  rewrite Z2N.inj_div by lia. rewrite Z2N.inj_mod by lia.
  change (Z.to_N 10) with 10%N. set (k := Z.to_N n).
  assert (k `mod` 10 < 10)%N as Hd by (apply N.mod_lt; lia).
  rewrite (pretty_N_digit (k `mod` 10)) by exact Hd.
  destruct (decide (k < 10)%N) as [Hk|Hk].
  - rewrite (pretty_N_digit k Hk), (N.div_small k 10 Hk), (N.mod_small k 10 Hk).
    reflexivity.
  - rewrite (pretty_N_last k) by lia.
    pose proof (pretty_N_nonempty (k `div` 10)) as Hlen.
    set (p := pretty (k `div` 10)%N) in *.
    set (c := pretty_N_char (k `mod` 10)).
    rewrite padStart_long by (rewrite string_length_app; simpl; lia).
    rewrite string_length_app.
    replace (String.length p + String.length (String c "") - 1)%nat
      with (String.length p) by (simpl; lia).
    rewrite substring_app_l, substring_app_r. reflexivity.
Qed.

(** X20. When the quotients that the detail line of a leg computes, the
    distance over 1609.34 and the duration over 3600, are non-negative
    numbers below 1e21, the line prints the first as the nearest whole
    number (a half rounding up) in plain decimal digits, and the second as
    the nearest number of tenths, as whole part, point and one digit. *)
Theorem leg_figures_as_printed (leg : gmap string value) (miles hours : Q) :
  divide (toNumber (leg !! "distance_meters"%string)) (literal 1609.34)
  = Fin miles ->
  divide (toNumber (leg !! "duration_seconds"%string)) (literal 3600)
  = Fin hours ->
  0 <= miles < inject_Z (10 ^ 21) ->
  0 <= hours < inject_Z (10 ^ 21) ->
  let whole := nearest 0 miles in
  let tenths := nearest 1 hours in
  leg_miles (legView leg) = toString whole
  /\ leg_hours (legView leg)
     = (toString (tenths / 10) +:+ "." +:+ toString (tenths mod 10))%string
  /\ (0 <= whole)%Z /\ (0 <= tenths)%Z /\ (0 <= tenths mod 10 <= 9)%Z
  /\ inject_Z whole <= miles + (1 # 2) < inject_Z whole + 1
  /\ inject_Z tenths <= hours * 10 + (1 # 2) < inject_Z tenths + 1.
Proof.
  intros Hm Hs Hmiles Hhours whole tenths.
  unfold legView, METERS_PER_MILE, SECONDS_PER_HOUR.
  cbn [leg_miles leg_hours]. rewrite Hm, Hs. cbn [toFixed].
  split; [apply toFixed0_nonneg, Hmiles|].
  split; [apply toFixed1_nonneg, Hhours|].
  split; [apply nearest_nonneg, Hmiles|].
  split; [apply nearest_nonneg, Hhours|].
  split; [pose proof (Z.mod_pos_bound tenths 10); lia|].
  subst whole tenths. unfold nearest.
  change (inject_Z (10 ^ Z.of_nat 0)) with 1.
  change (inject_Z (10 ^ Z.of_nat 1)) with 10.
  pose proof (Qfloor_le (miles * 1 + (1 # 2))) as Hlo.
  pose proof (Qlt_floor (miles * 1 + (1 # 2))) as Hhi.
  pose proof (Qfloor_le (hours * 10 + (1 # 2))) as Hlo'.
  pose proof (Qlt_floor (hours * 10 + (1 # 2))) as Hhi'.
  rewrite inject_Z_plus in Hhi, Hhi'. change (inject_Z 1) with 1 in Hhi, Hhi'.
  repeat split; lra.
Qed.

Lemma leg_figures_as_printed_witness :
  leg_miles (legView Samples.shortLeg) = "7"%string
  /\ leg_hours (legView Samples.shortLeg) = "0.1"%string.
Proof.
  pose (miles := match divide (toNumber (Samples.shortLeg !! "distance_meters"%string))
                         (literal 1609.34) with
                 | Fin q => q
                 | _ => 0
                 end).
  pose (hours := match divide (toNumber (Samples.shortLeg !! "duration_seconds"%string))
                         (literal 3600) with
                 | Fin q => q
                 | _ => 0
                 end).
  destruct (leg_figures_as_printed Samples.shortLeg miles hours)
    as (H1 & H2 & _).
  - vm_compute. reflexivity.
  - vm_compute. reflexivity.
  - vm_compute. split; [discriminate | reflexivity].
  - vm_compute. split; [discriminate | reflexivity].
  - split; [rewrite H1 | rewrite H2]; vm_compute; reflexivity.
Defined.

End LegFigures.
